(** * mutfs: the write-denial decision of the overlay node

    A shallow embedding of the grace-period revision of mutfs (the driver
    with the package variables [Log] and [Grace], the [MutNode] handlers
    and [main]) and of [btime], the creation-time lookup.  The handlers
    run in a small state monad over the backing store, the wall clock and
    the lines given to [log.Printf]; a nil dereference is a separate
    outcome, [Panic].  The modules [LogOnly] and [Linger] hold the
    handlers of the two revisions before it.  The section on the mount
    holds what the kernel and go-fuse's bridge do with a request before a
    handler runs.

    go-fuse's [fs.LoopbackNode], [unix.Statx], [filepath.Join],
    [time.ParseDuration], [os.Stat] and [fs.Mount] are libraries the
    program calls; they are fields of the classes [Backing] and
    [Runtime], and every general theorem holds for all their instances.
    The module [Toy] supplies one small instance so that closed examples
    can be evaluated. *)

From Stdlib Require Import ZArith List String Ascii Bool Lia.
Import ListNotations.
Open Scope string_scope.
Open Scope Z_scope.

(** ** Values of the Go runtime and of package syscall (linux) *)

Inductive Result (E A : Type) : Type :=
| Ok (a : A)
| Err (e : E).
Arguments Ok {E A} a.
Arguments Err {E A} e.

(** [syscall.Errno]; [fs.OK] is the zero errno. *)
Definition Errno := Z.
Definition OK : Errno := 0.
Definition ENOENT : Errno := 2.
Definition EACCES : Errno := 13.

(** Open flags, a [uint32]. *)
Definition O_RDONLY : Z := 0.
Definition O_WRONLY : Z := 1.
Definition O_RDWR : Z := 2.
Definition O_CREAT : Z := 64.
Definition O_TRUNC : Z := 512.
Definition O_APPEND : Z := 1024.

(** [time.Duration] is an int64 count of nanoseconds. *)
Definition Duration := Z.
Definition minDuration : Duration := - 2 ^ 63.
Definition maxDuration : Duration := 2 ^ 63 - 1.
Definition Second : Duration := 1000000000.

(** int64 wrap-around, for [Grace-since] in the log line. *)
Definition wrap64 (z : Z) : Z := (z + 2 ^ 63) mod 2 ^ 64 - 2 ^ 63.

(** [time.Time] without a monotonic reading, as nanoseconds since the Unix
    epoch.  [time.Unix(sec, nsec)] is that instant; [Time.Sub] gives the
    exact difference when it fits a [Duration] and saturates otherwise;
    [time.Since(t)] is [time.Now().Sub(t)]. *)
Definition Time := Z.

Definition Unix (sec nsec : Z) : Time := sec * Second + nsec.

Definition Sub (t u : Time) : Duration :=
  let d := t - u in
  if d <? minDuration then minDuration
  else if maxDuration <? d then maxDuration
  else d.

Definition Since (now t : Time) : Duration := Sub now t.

(** [fuse.Caller] and the request context: [fuse.FromContext] returns the
    caller the context carries, or a nil pointer and [false]. *)
Record Caller : Type := { Pid : Z; Uid : Z; Gid : Z }.

Record Context : Type := { ctxCaller : option Caller }.

Definition FromContext (ctx : Context) : option Caller := ctxCaller ctx.

(** [unix.Statx_t], the fields that matter here. *)
Record StatxTimestamp : Type := { Sec : Z; Nsec : Z }.

Record Statx_t : Type := {
  Mask : Z;
  Atime : StatxTimestamp;
  Btime : StatxTimestamp;
  Ctime : StatxTimestamp;
  Mtime : StatxTimestamp
}.

Definition STATX_BTIME : Z := 2048.
Definition STATX_BASIC_STATS : Z := 2047.

(** [MutNode] embeds [fs.LoopbackNode]: the root's backing directory
    ([RootData.Path]) and the node's path below the root
    ([n.Path(n.Root())]). *)
Record MutNode : Type := { RootData_Path : string; Path : string }.

(** The package variables [Log] and [Grace]. *)
Record Globals : Type := { Log : bool; Grace : Duration }.

(** What [log.Printf] is given: the two messages of [deny]. *)
Inductive LogLine : Type :=
| AccessGranted (path : string) (left : Duration) (pid uid gid : Z)
| AccessDenied (path : string) (pid uid gid : Z).

(** What [Open] returns: file handle (nil is [None]), fuse flags, errno. *)
Definition OpenReply (FH : Type) : Type := (option FH * Z * Errno)%type.

(** ** The libraries under the node *)

Class Backing : Type := {
  Store : Type;
  FileHandle : Type;
  SetAttrIn : Type;
  filepath_Join : string -> string -> string;
  (* unix.Statx(AT_FDCWD, name, AT_SYMLINK_NOFOLLOW, STATX_ALL, &statx) *)
  unix_Statx : string -> Store -> Result Errno Statx_t;
  LoopbackNode_Unlink : MutNode -> string -> Store -> Errno * Store;
  LoopbackNode_Rmdir : MutNode -> string -> Store -> Errno * Store;
  LoopbackNode_Removexattr : MutNode -> string -> Store -> Errno * Store;
  LoopbackNode_Setxattr :
    MutNode -> string -> string -> Z -> Store -> Errno * Store;
  LoopbackNode_Setattr :
    MutNode -> option FileHandle -> SetAttrIn -> Store -> Errno * Store;
  LoopbackNode_Rename :
    MutNode -> string -> MutNode -> string -> Z -> Store -> Errno * Store;
  LoopbackNode_Open : MutNode -> Z -> Store -> OpenReply FileHandle * Store
}.

(** ** The monad of the handlers *)

Section Handlers.
Context {B : Backing}.

Record World : Type := {
  now : Time;
  store : Store;
  logged : list LogLine
}.

Inductive Outcome (A : Type) : Type :=
| Return (a : A) (w : World)
| Panic (w : World).
Arguments Return {A} a w.
Arguments Panic {A} w.

Definition M (A : Type) : Type := World -> Outcome A.

Definition ret {A} (a : A) : M A := fun w => Return a w.

Definition bind {A C} (m : M A) (k : A -> M C) : M C :=
  fun w => match m w with
           | Return a w' => k a w'
           | Panic w' => Panic w'
           end.

Definition panic {A} : M A := fun w => Panic w.

Definition time_Now : M Time := fun w => Return (now w) w.

Definition read {A} (f : Store -> A) : M A := fun w => Return (f (store w)) w.

Definition call {A} (f : Store -> A * Store) : M A :=
  fun w => let (a, s) := f (store w) in
           Return a {| now := now w; store := s; logged := logged w |}.

Definition log_Printf (l : LogLine) : M unit :=
  fun w => Return tt {| now := now w; store := store w;
                        logged := logged w ++ [l] |}.

(** Selecting a field of the caller: a nil pointer panics. *)
Definition deref (c : option Caller) : M Caller :=
  match c with
  | Some c => ret c
  | None => panic
  end.

End Handlers.

Arguments Return {B A} a w.
Arguments Panic {B A} w.

Declare Scope go_scope.
Delimit Scope go_scope with go.
Notation "x <- c ;; k" := (bind c (fun x => k))
  (at level 61, c at next level, right associativity) : go_scope.
Notation "c ;;; k" := (bind c (fun _ => k))
  (at level 61, right associativity) : go_scope.
Open Scope go_scope.

(** ** btime and the node's handlers *)

Section Node.
Context {B : Backing}.

(** [btime]: the birth time that statx reports, or statx's error. *)
Definition btime (name : string) (s : Store) : Result Errno Time :=
  match unix_Statx name s with
  | Err e => Err e
  | Ok statx => Ok (Unix (Sec (Btime statx)) (Nsec (Btime statx)))
  end.

Definition actualPath (n : MutNode) (name : string) : string :=
  filepath_Join (RootData_Path n) (filepath_Join (Path n) name).

Section Deny.
Variable g : Globals.

(** The tail of [deny], reached when the lookup failed or the grace period
    is over. *)
Definition deny_refuse (path : string) (caller : option Caller) : M Errno :=
  if negb (Log g) then ret EACCES
  else
    c <- deref caller ;;
    log_Printf (AccessDenied path (Pid c) (Uid c) (Gid c)) ;;;
    ret EACCES.

Definition deny (n : MutNode) (ctx : Context) (name : string) : M Errno :=
  let path := actualPath n name in
  let caller := FromContext ctx in
  r <- read (btime path) ;;
  match r with
  | Ok bt =>
      t <- time_Now ;;
      let since := Since t bt in
      if since <? Grace g then
        if negb (Log g) then ret OK
        else
          c <- deref caller ;;
          log_Printf (AccessGranted path (wrap64 (Grace g - since))
                                    (Pid c) (Uid c) (Gid c)) ;;;
          ret OK
      else deny_refuse path caller
  | Err _ => deny_refuse path caller
  end.

Definition Unlink (n : MutNode) (ctx : Context) (name : string) : M Errno :=
  errno <- deny n ctx name ;;
  if negb (errno =? OK) then ret errno
  else call (LoopbackNode_Unlink n name).

Definition Rmdir (n : MutNode) (ctx : Context) (name : string) : M Errno :=
  errno <- deny n ctx name ;;
  if negb (errno =? OK) then ret errno
  else call (LoopbackNode_Rmdir n name).

Definition Removexattr (n : MutNode) (ctx : Context) (attr : string)
  : M Errno :=
  errno <- deny n ctx "" ;;
  if negb (errno =? OK) then ret errno
  else call (LoopbackNode_Removexattr n attr).

Definition Setxattr (n : MutNode) (ctx : Context) (attr data : string)
                    (flags : Z) : M Errno :=
  errno <- deny n ctx "" ;;
  if negb (errno =? OK) then ret errno
  else call (LoopbackNode_Setxattr n attr data flags).

Definition Setattr (n : MutNode) (ctx : Context) (f : option FileHandle)
                   (i : SetAttrIn) : M Errno :=
  errno <- deny n ctx "" ;;
  if negb (errno =? OK) then ret errno
  else call (LoopbackNode_Setattr n f i).

Definition Rename (n : MutNode) (ctx : Context) (name : string)
                  (newParent : MutNode) (newName : string) (flags : Z)
  : M Errno :=
  errno <- deny n ctx "" ;;
  if negb (errno =? OK) then ret errno
  else call (LoopbackNode_Rename n name newParent newName flags).

(** The switch of [Open]: each of the first three cases falls through to
    the body of the last. *)
Definition write_intent (flags : Z) : bool :=
  negb (Z.land flags O_APPEND =? 0)
  || negb (Z.land flags O_WRONLY =? 0)
  || negb (Z.land flags O_TRUNC =? 0)
  || negb (Z.land flags O_RDWR =? 0).

(** [Open] from its switch on. *)
Definition Open_switch (n : MutNode) (ctx : Context) (flags : Z)
  : M (OpenReply FileHandle) :=
  if write_intent flags then
    errno <- deny n ctx "" ;;
    if negb (errno =? OK) then ret (None, 0, errno)
    else call (LoopbackNode_Open n flags)
  else
    let flags := Z.ldiff flags 32768 in
    if flags =? O_RDONLY then call (LoopbackNode_Open n flags)
    else ret (None, 0, EACCES).

Definition Open (n : MutNode) (ctx : Context) (flags : Z)
  : M (OpenReply FileHandle) :=
  if negb (Z.land flags O_CREAT =? 0) then
    r <- call (LoopbackNode_Open n flags) ;;
    if snd r =? ENOENT then ret r
    else Open_switch n ctx flags
  else Open_switch n ctx flags.

End Deny.
End Node.

(** ** main: arguments, options, mount *)

(** [fs.Options] as [main] fills it in. *)
Record Options : Type := {
  AttrTimeout : option Duration;
  EntryTimeout : option Duration;
  Debug : bool;
  NullPermissions : bool;
  AllowOther : bool;
  MountOptions_Options : list string;
  MountOptions_Name : string
}.

(** A step of [main] goes on or ends the process: [os.Exit(code)], and
    [log.Fatalf], which prints and calls [os.Exit(1)]. *)
Inductive Run (A : Type) : Type :=
| Go_on (a : A)
| Exit (code : Z).
Arguments Go_on {A} a.
Arguments Exit {A} code.

Definition and_then {A C} (r : Run A) (k : A -> Run C) : Run C :=
  match r with
  | Go_on a => k a
  | Exit c => Exit c
  end.

Definition log_Fatalf {A} : Run A := Exit 1.

(** [strings.Split(s, sep)] for a separator of one byte. *)
Fixpoint strings_Split (s : string) (sep : ascii) : list string :=
  match s with
  | EmptyString => [EmptyString]
  | String c s' =>
      if Ascii.eqb c sep then EmptyString :: strings_Split s' sep
      else match strings_Split s' sep with
           | x :: xs => String c x :: xs
           | [] => [String c EmptyString]
           end
  end.

Definition strings_HasPrefix (s p : string) : bool := String.prefix p s.

Class Runtime : Type := {
  time_ParseDuration : string -> Result string Duration;
  (* os.Stat(d): an error, or whether fi.IsDir() *)
  os_Stat : string -> Result string bool;
  (* fs.Mount(dir, root, opts), then server.Wait() until unmounted *)
  fs_Mount : string -> MutNode -> Options -> Result string unit
}.

Section Main.
Context {R : Runtime}.

Definition append_option (o : string) (opts : Options) : Options :=
  {| AttrTimeout := AttrTimeout opts;
     EntryTimeout := EntryTimeout opts;
     Debug := Debug opts;
     NullPermissions := NullPermissions opts;
     AllowOther := AllowOther opts;
     MountOptions_Options := MountOptions_Options opts ++ [o];
     MountOptions_Name := MountOptions_Name opts |}.

(** The body of the loop over [*flagOpts]. *)
Definition option_case (o : string) (st : Options * Globals)
  : Run (Options * Globals) :=
  let (opts, g) := st in
  if (o =? "debug")%string then
    Go_on ({| AttrTimeout := AttrTimeout opts;
              EntryTimeout := EntryTimeout opts;
              Debug := true;
              NullPermissions := NullPermissions opts;
              AllowOther := AllowOther opts;
              MountOptions_Options := MountOptions_Options opts;
              MountOptions_Name := MountOptions_Name opts |}, g)
  else if (o =? "null")%string then
    Go_on ({| AttrTimeout := AttrTimeout opts;
              EntryTimeout := EntryTimeout opts;
              Debug := Debug opts;
              NullPermissions := true;
              AllowOther := AllowOther opts;
              MountOptions_Options := MountOptions_Options opts;
              MountOptions_Name := MountOptions_Name opts |}, g)
  else if (o =? "allow_other")%string then
    Go_on (append_option "default_permissions"
             {| AttrTimeout := AttrTimeout opts;
                EntryTimeout := EntryTimeout opts;
                Debug := Debug opts;
                NullPermissions := NullPermissions opts;
                AllowOther := true;
                MountOptions_Options := MountOptions_Options opts;
                MountOptions_Name := MountOptions_Name opts |}, g)
  else if (o =? "ro")%string then
    Go_on (append_option "ro" opts, g)
  else if (o =? "log")%string then
    Go_on (opts, {| Log := true; Grace := Grace g |})
  else if strings_HasPrefix o "grace=" then
    let xs := strings_Split o "="%char in
    if negb (Nat.eqb (List.length xs) 2) then log_Fatalf
    else match time_ParseDuration (nth 1 xs "") with
         | Err _ => log_Fatalf
         | Ok d => Go_on (opts, {| Log := Log g; Grace := d |})
         end
  else Go_on (opts, g).

Fixpoint option_loop (os : list string) (st : Options * Globals)
  : Run (Options * Globals) :=
  match os with
  | [] => Go_on st
  | o :: os' => and_then (option_case o st) (option_loop os')
  end.

(** The loop over the two directories. *)
Definition check_dir (d : string) : Run unit :=
  match os_Stat d with
  | Err _ => log_Fatalf
  | Ok isDir => if negb isDir then log_Fatalf else Go_on tt
  end.

Fixpoint check_dirs (ds : list string) : Run unit :=
  match ds with
  | [] => Go_on tt
  | d :: ds' => and_then (check_dir d) (fun _ => check_dirs ds')
  end.

Definition New (rootData_Path : string) : MutNode :=
  {| RootData_Path := rootData_Path; Path := "" |}.

Definition initial_Options : Options :=
  {| AttrTimeout := Some Second; EntryTimeout := Some Second;
     Debug := false; NullPermissions := false; AllowOther := false;
     MountOptions_Options := []; MountOptions_Name := "" |}.

Definition initial_Globals : Globals := {| Log := false; Grace := 0 |}.

(** What [main] hands to [fs.Mount]: the options after the loop, with the
    fsname and the name set, and the package variables. *)
Definition configure (olddir : string) (flagOpts : list string)
  : Run (Options * Globals) :=
  and_then (option_loop flagOpts (initial_Options, initial_Globals))
    (fun st =>
       let opts := append_option ("fsname=" ++ olddir) (fst st) in
       Go_on ({| AttrTimeout := AttrTimeout opts;
                 EntryTimeout := EntryTimeout opts;
                 Debug := Debug opts;
                 NullPermissions := NullPermissions opts;
                 AllowOther := AllowOther opts;
                 MountOptions_Options := MountOptions_Options opts;
                 MountOptions_Name := "mutfs" |}, snd st)).

(** [main] after [flag.Parse()]: [args] are the positional arguments
    ([flag.Arg], [flag.NArg]), [flagOpts] the values of [-o].  The result
    is how the process ends; returning from [main] is a [Go_on]. *)
Definition main (args flagOpts : list string) : Run unit :=
  if (List.length args <? 2)%nat then Exit 2
  else
    let olddir := nth 0 args "" in
    and_then (check_dirs [olddir; nth 1 args ""]) (fun _ =>
    let mutnode := New olddir in
    and_then (configure olddir flagOpts) (fun st =>
    match fs_Mount (nth 1 args "") mutnode (fst st) with
    | Err _ => log_Fatalf
    | Ok _ => Go_on tt
    end)).

(** The exit status of the process. *)
Definition exit_status (r : Run unit) : Z :=
  match r with
  | Go_on _ => 0
  | Exit c => c
  end.

End Main.

(** The [fs.LoopbackNode] that every revision of [MutNode] embeds. *)
Definition LoopbackNode : Type := MutNode.

(** ** The revision before the grace period

    There the node carries its own [log] flag and [deny] only refuses; it
    tests the [ok] of [fuse.FromContext] before it touches the caller. *)
Module LogOnly.
Section Deny.
Context {B : Backing}.

Record MutNode : Type := { log : bool }.

Definition deny (n : MutNode) (ctx : Context) (name : string) : M Errno :=
  if negb (log n) then ret EACCES
  else
    match FromContext ctx with
    | None => ret EACCES
    | Some caller =>
        (if negb (name =? "")%string
         then log_Printf (AccessDenied name (Pid caller) (Uid caller)
                                       (Gid caller))
         else log_Printf (AccessDenied "" (Pid caller) (Uid caller)
                                       (Gid caller))) ;;;
        ret EACCES
    end.

(** The handlers of this revision are [deny] and nothing else. *)
Definition Unlink (n : MutNode) (ctx : Context) (name : string) : M Errno :=
  deny n ctx name.

Definition Rmdir (n : MutNode) (ctx : Context) (name : string) : M Errno :=
  deny n ctx name.

Definition Removexattr (n : MutNode) (ctx : Context) (attr : string)
  : M Errno :=
  deny n ctx "".

Definition Setxattr (n : MutNode) (ctx : Context) (attr data : string)
  : M (Z * Errno) :=
  errno <- deny n ctx "" ;;
  ret (0, errno).

Definition Setattr (n : MutNode) (ctx : Context) (f : option FileHandle)
                   (i : SetAttrIn) : M Errno :=
  deny n ctx "".

Definition Rename (n : MutNode) (ctx : Context) (name : string)
                  (newParent : LoopbackNode) (newName : string) (flags : Z)
  : M Errno :=
  deny n ctx name.

Definition Setlkw (n : MutNode) (ctx : Context) (f : option FileHandle)
                  (owner : Z) (flags : Z) : M Errno :=
  deny n ctx "".

(** [Open] reads nothing of the node but its embedded [LoopbackNode]; the
    revision with the linger period has the same [Open], word for word. *)
Definition Open_switch (lb : LoopbackNode) (flags : Z)
  : M (OpenReply FileHandle) :=
  if write_intent flags then ret (None, 0, EACCES)
  else
    let flags := Z.ldiff flags 32768 in
    if flags =? O_RDONLY then call (LoopbackNode_Open lb flags)
    else ret (None, 0, EACCES).

Definition Open (lb : LoopbackNode) (ctx : Context) (flags : Z)
  : M (OpenReply FileHandle) :=
  if negb (Z.land flags O_CREAT =? 0) then
    r <- call (LoopbackNode_Open lb flags) ;;
    if snd r =? ENOENT then ret r
    else Open_switch lb flags
  else Open_switch lb flags.

End Deny.
End LogOnly.

(** ** The revision with the linger period

    The node remembers the change time of its [stat] at creation, and
    [deny] lets a request pass while less than [Linger] has gone by since
    then.  [Setxattr] of this revision calls itself and [Lookup] only
    forwards; both are left out. *)
Module Linger.

(** [syscall.Timespec]. *)
Record Timespec : Type := { tv_sec : Z; tv_nsec : Z }.

(** The zero [time.Time]: 1 January of the year 1, UTC. *)
Definition zeroTime : Time := Unix (-62135596800) 0.

Record MutNode : Type := { lb : LoopbackNode; ctime : Time }.

(** The package variables [Log] and [Linger]. *)
Record Globals : Type := { Log : bool; Linger : Duration }.

(** [New] returns the node, and prints its change time on standard output:
    the second component.  The path of the node comes from the inode tree
    once go-fuse has attached it; [deny] of this revision does not use
    it. *)
Definition New (rootData_Path : string) (stat : option Timespec)
  : MutNode * Time :=
  let ctime := match stat with
               | Some ctim => Unix (tv_sec ctim) (tv_nsec ctim)
               | None => zeroTime
               end in
  ({| lb := {| RootData_Path := rootData_Path; Path := "" |};
      ctime := ctime |}, ctime).

Section Node.
Context {B : Backing}.

(** Under the read lock; the handlers here run one at a time. *)
Definition ChangeTime (n : MutNode) : Time := ctime n.

Section Deny.
Variable g : Globals.

Definition deny_refuse (ctx : Context) (name : string) : M Errno :=
  if negb (Log g) then ret EACCES
  else
    match FromContext ctx with
    | None => ret EACCES
    | Some caller =>
        (if negb (name =? "")%string
         then log_Printf (AccessDenied name (Pid caller) (Uid caller)
                                       (Gid caller))
         else log_Printf (AccessDenied "" (Pid caller) (Uid caller)
                                       (Gid caller))) ;;;
        ret EACCES
    end.

Definition deny (n : MutNode) (ctx : Context) (name : string) : M Errno :=
  if 0 <? Linger g then
    let c := ChangeTime n in
    t <- time_Now ;;
    let since := Since t c in
    if since <? Linger g then
      (if Log g then
         caller <- deref (FromContext ctx) ;;
         if negb (name =? "")%string
         then log_Printf (AccessGranted name (wrap64 (Linger g - since))
                                        (Pid caller) (Uid caller) (Gid caller))
         else log_Printf (AccessGranted "" (wrap64 (Linger g - since))
                                        (Pid caller) (Uid caller) (Gid caller))
       else ret tt) ;;;
      ret OK
    else deny_refuse ctx name
  else deny_refuse ctx name.

Definition Unlink (n : MutNode) (ctx : Context) (name : string) : M Errno :=
  err <- deny n ctx name ;;
  if negb (err =? OK) then ret err
  else call (LoopbackNode_Unlink (lb n) name).

Definition Rmdir (n : MutNode) (ctx : Context) (name : string) : M Errno :=
  err <- deny n ctx name ;;
  if negb (err =? OK) then ret err
  else call (LoopbackNode_Rmdir (lb n) name).

Definition Removexattr (n : MutNode) (ctx : Context) (atr : string)
  : M Errno :=
  deny n ctx "".

Definition Setattr (n : MutNode) (ctx : Context) (f : option FileHandle)
                   (i : SetAttrIn) : M Errno :=
  deny n ctx "".

Definition Rename (n : MutNode) (ctx : Context) (name : string)
                  (f : LoopbackNode) (newName : string) (flags : Z)
  : M Errno :=
  deny n ctx name.

Definition Setlkw (n : MutNode) (ctx : Context) (fh : option FileHandle)
                  (owner : Z) (flags : Z) : M Errno :=
  deny n ctx "".

End Deny.
End Node.
End Linger.

(** ** A small backing store, for closed examples

    Objects by absolute path, each with its content, its birth time (absent
    when the file system keeps none) and its change time.  [Open] follows
    open(2) on what the examples use: an existing file opened for writing
    with O_TRUNC loses its content, a missing one is made when O_CREAT is
    given (the directories on the way are not looked at). *)
Module Toy.

Record Obj : Type := {
  isDir : bool;
  data : string;
  birth : option StatxTimestamp;
  change : StatxTimestamp
}.

Record Disk : Type := { fsclock : StatxTimestamp; objs : list (string * Obj) }.

Fixpoint lookup (p : string) (l : list (string * Obj)) : option Obj :=
  match l with
  | [] => None
  | (q, o) :: l' => if (p =? q)%string then Some o else lookup p l'
  end.

Fixpoint remove (p : string) (l : list (string * Obj)) : list (string * Obj) :=
  match l with
  | [] => []
  | (q, o) :: l' => if (p =? q)%string then remove p l' else (q, o) :: remove p l'
  end.

Definition put (p : string) (o : Obj) (d : Disk) : Disk :=
  {| fsclock := fsclock d; objs := (p, o) :: remove p (objs d) |}.

Definition del (p : string) (d : Disk) : Disk :=
  {| fsclock := fsclock d; objs := remove p (objs d) |}.

Definition Join (a b : string) : string :=
  if (b =? "")%string then a
  else if (a =? "")%string then b
  else a ++ "/" ++ b.

Definition epoch : StatxTimestamp := {| Sec := 0; Nsec := 0 |}.

Definition Statx (p : string) (d : Disk) : Result Errno Statx_t :=
  match lookup p (objs d) with
  | None => Err ENOENT
  | Some o =>
      Ok {| Mask := match birth o with
                    | Some _ => Z.lor STATX_BASIC_STATS STATX_BTIME
                    | None => STATX_BASIC_STATS
                    end;
            Atime := change o;
            Btime := match birth o with Some b => b | None => epoch end;
            Ctime := change o;
            Mtime := change o |}
  end.

Definition nodePath (n : MutNode) : string := Join (RootData_Path n) (Path n).

Definition remove_entry (wantDir : bool) (n : MutNode) (name : string)
                        (d : Disk) : Errno * Disk :=
  let p := Join (nodePath n) name in
  match lookup p (objs d) with
  | None => (ENOENT, d)
  | Some o => if Bool.eqb (isDir o) wantDir then (OK, del p d)
              else (if wantDir then 20 else 21, d)
  end.

Definition touch_attr (n : MutNode) (d : Disk) : Errno * Disk :=
  match lookup (nodePath n) (objs d) with
  | None => (ENOENT, d)
  | Some _ => (OK, d)
  end.

Definition Rename (n : MutNode) (name : string) (newParent : MutNode)
                  (newName : string) (flags : Z) (d : Disk) : Errno * Disk :=
  let p := Join (nodePath n) name in
  match lookup p (objs d) with
  | None => (ENOENT, d)
  | Some o => (OK, put (Join (nodePath newParent) newName) o (del p d))
  end.

Definition Open (n : MutNode) (flags : Z) (d : Disk)
  : OpenReply string * Disk :=
  let flags := Z.ldiff flags O_APPEND in
  let p := nodePath n in
  match lookup p (objs d) with
  | Some o =>
      if negb (Z.land flags O_TRUNC =? 0) && negb (Z.land flags 3 =? 0)
         && negb (isDir o)
      then ((Some p, 0, OK),
            put p {| isDir := false; data := ""; birth := birth o;
                     change := fsclock d |} d)
      else ((Some p, 0, OK), d)
  | None =>
      if negb (Z.land flags O_CREAT =? 0)
      then ((Some p, 0, OK),
            put p {| isDir := false; data := ""; birth := Some (fsclock d);
                     change := fsclock d |} d)
      else ((None, 0, ENOENT), d)
  end.

#[export] Instance backing : Backing := {|
  Store := Disk;
  FileHandle := string;
  SetAttrIn := unit;
  filepath_Join := Join;
  unix_Statx := Statx;
  LoopbackNode_Unlink := remove_entry false;
  LoopbackNode_Rmdir := remove_entry true;
  LoopbackNode_Removexattr := fun n _ => touch_attr n;
  LoopbackNode_Setxattr := fun n _ _ _ => touch_attr n;
  LoopbackNode_Setattr := fun n _ _ => touch_attr n;
  LoopbackNode_Rename := Rename;
  LoopbackNode_Open := Open
|}.

(** Durations of the form digits and one unit, as [time.ParseDuration]
    reads them; every other form is an error here. *)
Fixpoint digits (s : string) (acc : Z) : Z * string :=
  match s with
  | String c s' =>
      let k := Z.of_nat (nat_of_ascii c) in
      if (48 <=? k) && (k <=? 57) then digits s' (acc * 10 + (k - 48))
      else (acc, s)
  | EmptyString => (acc, s)
  end.

Definition unit_of (u : string) : option Z :=
  if (u =? "ns")%string then Some 1
  else if (u =? "us")%string then Some 1000
  else if (u =? "ms")%string then Some 1000000
  else if (u =? "s")%string then Some Second
  else if (u =? "m")%string then Some (60 * Second)
  else if (u =? "h")%string then Some (3600 * Second)
  else None.

Definition ParseDuration (s : string) : Result string Duration :=
  let (v, rest) := digits s 0 in
  if (String.length rest =? String.length s)%nat then Err "invalid duration"
  else match unit_of rest with
       | Some u => if v * u <=? maxDuration then Ok (v * u)
                   else Err "invalid duration"
       | None => Err "unknown unit"
       end.

(** A host with an archive directory, a mount point and one plain file. *)
Definition at_ (sec : Z) : StatxTimestamp := {| Sec := sec; Nsec := 0 |}.

Definition dir_ (sec : Z) : Obj :=
  {| isDir := true; data := ""; birth := Some (at_ sec); change := at_ sec |}.

Definition file_ (content : string) (sec : Z) : Obj :=
  {| isDir := false; data := content; birth := Some (at_ sec);
     change := at_ sec |}.

Definition host : Disk :=
  {| fsclock := at_ 1000;
     objs := [ ("/srv/archive", dir_ 10);
               ("/srv/archive/old.txt", file_ "ledger" 20);
               ("/srv/archive/new.txt", file_ "draft" 999);
               ("/mnt/mut", dir_ 10);
               ("/etc/motd", file_ "hello" 10) ] |}.

#[export] Instance runtime : Runtime := {|
  time_ParseDuration := ParseDuration;
  os_Stat := fun d => match lookup d (objs host) with
                      | None => Err "no such file or directory"
                      | Some o => Ok (isDir o)
                      end;
  fs_Mount := fun _ _ _ => Ok tt
|}.

(** The root node of the archive and the state of the world at second
    1000, with nothing logged yet. *)
Definition root : MutNode := New "/srv/archive".

Definition child (name : string) : MutNode :=
  {| RootData_Path := "/srv/archive"; Path := name |}.

Definition world (d : Disk) : World :=
  {| now := Unix 1000 0; store := d; logged := [] |}.

Definition anonymous : Context := {| ctxCaller := None |}.

Definition request : Context :=
  {| ctxCaller := Some {| Pid := 4242; Uid := 1000; Gid := 1000 |} |}.

Definition content (p : string) (d : Disk) : option string :=
  option_map data (lookup p (objs d)).

(** Grace periods for the examples. *)
Definition grace5 : Globals := {| Log := false; Grace := 5 * Second |}.

Definition grace1_logged : Globals := {| Log := true; Grace := 1 * Second |}.

(** O_CREAT|O_WRONLY|O_TRUNC, as a shell's [> file] opens. *)
Definition overwrite_flags : Z := Z.lor O_CREAT (Z.lor O_WRONLY O_TRUNC).

(** A file system that keeps no birth times: statx succeeds, leaves
    STATX_BTIME out of the mask and the birth time zero. *)
Definition legacy : Disk :=
  {| fsclock := at_ 1000;
     objs := [ ("/srv/archive",
                {| isDir := true; data := ""; birth := None;
                   change := at_ 10 |});
               ("/srv/archive/new.txt",
                {| isDir := false; data := "draft"; birth := None;
                   change := at_ 999 |}) ] |}.

(** A directory made two seconds ago that holds an old file (a hard link
    made through the mount, or a file moved in on the backing store). *)
Definition inbox : Disk :=
  {| fsclock := at_ 1000;
     objs := [ ("/srv/archive", dir_ 10);
               ("/srv/archive/inbox", dir_ 998);
               ("/srv/archive/inbox/old.txt", file_ "ledger" 20) ] |}.

(** The host after the new file was written to again: born as before,
    changed later. *)
Definition edited : Disk :=
  put "/srv/archive/new.txt"
      {| isDir := false; data := "draft, second thoughts";
         birth := Some (at_ 999); change := at_ 1000 |}
      host.

(** The host seen at second 5, before the files of the archive were
    born. *)
Definition early : World :=
  {| now := Unix 5 0; store := host; logged := [] |}.

Definition grace10 : Globals := {| Log := false; Grace := 10 * Second |}.

(** A node of the linger revision made one second ago. *)
Definition lingering : Linger.MutNode :=
  {| Linger.lb := child "new.txt"; Linger.ctime := Unix 999 0 |}.

Definition linger5 : Linger.Globals :=
  {| Linger.Log := false; Linger.Linger := 5 * Second |}.

Definition linger0_logged : Linger.Globals :=
  {| Linger.Log := true; Linger.Linger := 0 |}.

End Toy.

(** [LoopbackNode.Create] on the small backing store: open(2) of the entry
    with O_CREAT added. *)
Definition Toy_Create (n : MutNode) (name : string) (flags mode : Z)
                      (d : Toy.Disk) : OpenReply string * Toy.Disk :=
  Toy.Open {| RootData_Path := RootData_Path n;
              Path := Toy.Join (Path n) name |}
           (Z.lor flags O_CREAT) d.

Definition Toy_caller : Caller := {| Pid := 4242; Uid := 1000; Gid := 1000 |}.

(** The option list with every [ro] taken out. *)
Definition without_ro (flagOpts : list string) : list string :=
  filter (fun o => negb (o =? "ro")%string) flagOpts.

(** The package variables of a configuration, or the exit code. *)
Definition globals_of (r : Run (Options * Globals)) : Run Globals :=
  match r with
  | Go_on st => Go_on (snd st)
  | Exit c => Exit c
  end.

(** Whether statx reported a birth time. *)
Definition reports_btime (statx : Statx_t) : bool :=
  negb (Z.land (Mask statx) STATX_BTIME =? 0).

(** ** What the decision leaves behind *)

Section Answers.
Context {B : Backing}.
Variable g : Globals.

(** The handlers can return only when logging is off or the context
    carries a caller: otherwise [deny] dereferences a nil caller. *)
Definition answers (ctx : Context) : Prop :=
  Log g = true -> FromContext ctx <> None.

Definition with_log (w : World) (l : list LogLine) : World :=
  {| now := now w; store := store w; logged := logged w ++ l |}.

(** What [deny] appends to the log when it refuses, and when it grants. *)
Definition refusal_lines (ctx : Context) (path : string) : list LogLine :=
  if Log g then
    match FromContext ctx with
    | Some c => [AccessDenied path (Pid c) (Uid c) (Gid c)]
    | None => []
    end
  else [].

Definition grant_lines (ctx : Context) (path : string) (left : Duration)
  : list LogLine :=
  if Log g then
    match FromContext ctx with
    | Some c => [AccessGranted path left (Pid c) (Uid c) (Gid c)]
    | None => []
    end
  else [].

End Answers.

(** ** Requests, as the FUSE bridge delivers them to the node

    The six handlers that answer with an errno, and the name each of them
    gives to [deny]. *)

Section Requests.
Context {B : Backing}.

Inductive Request : Type :=
| ReqUnlink (name : string)
| ReqRmdir (name : string)
| ReqRemovexattr (attr : string)
| ReqSetxattr (attr data : string) (flags : Z)
| ReqSetattr (f : option FileHandle) (i : SetAttrIn)
| ReqRename (name : string) (newParent : MutNode) (newName : string)
            (flags : Z).

Definition serve (g : Globals) (n : MutNode) (ctx : Context) (r : Request)
  : M Errno :=
  match r with
  | ReqUnlink name => Unlink g n ctx name
  | ReqRmdir name => Rmdir g n ctx name
  | ReqRemovexattr attr => Removexattr g n ctx attr
  | ReqSetxattr attr data flags => Setxattr g n ctx attr data flags
  | ReqSetattr f i => Setattr g n ctx f i
  | ReqRename name newParent newName flags =>
      Rename g n ctx name newParent newName flags
  end.

(** The second argument of the handler's call of [deny]. *)
Definition consulted (r : Request) : string :=
  match r with
  | ReqUnlink name => name
  | ReqRmdir name => name
  | ReqRemovexattr _ => ""
  | ReqSetxattr _ _ _ => ""
  | ReqSetattr _ _ => ""
  | ReqRename _ _ _ _ => ""
  end.

(** The call of the embedded [LoopbackNode] that ends the handler. *)
Definition forward (n : MutNode) (r : Request) : Store -> Errno * Store :=
  match r with
  | ReqUnlink name => LoopbackNode_Unlink n name
  | ReqRmdir name => LoopbackNode_Rmdir n name
  | ReqRemovexattr attr => LoopbackNode_Removexattr n attr
  | ReqSetxattr attr data flags => LoopbackNode_Setxattr n attr data flags
  | ReqSetattr f i => LoopbackNode_Setattr n f i
  | ReqRename name newParent newName flags =>
      LoopbackNode_Rename n name newParent newName flags
  end.

(** The caller tries again after each of the given waits. *)
Definition sleep (dt : Duration) : M unit :=
  fun w => Return tt {| now := now w + dt; store := store w;
                        logged := logged w |}.

Fixpoint retry (m : M Errno) (waits : list Duration) : M (list Errno) :=
  match waits with
  | [] => ret []
  | dt :: waits' =>
      sleep dt ;;;
      errno <- m ;;
      rest <- retry m waits' ;;
      ret (errno :: rest)
  end.

(** The world after the first call of [LoopbackNode.Open] in [Open]. *)
Definition attempted (n : MutNode) (flags : Z) (w : World) : World :=
  {| now := now w; store := snd (LoopbackNode_Open n flags (store w));
     logged := logged w |}.

(** The grace period of the object at [path] is over, or its creation
    time cannot be found. *)
Definition out_of_grace (g : Globals) (path : string) (w : World) : Prop :=
  match btime path (store w) with
  | Ok bt => Grace g <= Since (now w) bt
  | Err _ => True
  end.

End Requests.

(** An argument that [os.Stat] cannot find or that is not a directory. *)
Definition not_a_directory {R : Runtime} (d : string) : Prop :=
  match os_Stat d with
  | Ok true => False
  | _ => True
  end.

(** ** Reading the option list *)

(** Whether the byte occurs in the string. *)
Fixpoint has_byte (c : ascii) (s : string) : bool :=
  match s with
  | EmptyString => false
  | String c' s' => Ascii.eqb c' c || has_byte c s'
  end.

(** The options that a case of the loop in [main] takes up. *)
Definition recognised (o : string) : bool :=
  (o =? "debug")%string || (o =? "null")%string
  || (o =? "allow_other")%string || (o =? "ro")%string
  || (o =? "log")%string || strings_HasPrefix o "grace=".

(** What an option adds to the mount options. *)
Definition mount_words (o : string) : list string :=
  if (o =? "allow_other")%string then ["default_permissions"]
  else if (o =? "ro")%string then ["ro"]
  else [].

(** Whether the option was given. *)
Definition given (o : string) (flagOpts : list string) : bool :=
  existsb (fun x => (x =? o)%string) flagOpts.

(** What one option without a duration does to the mount's [fs.Options]. *)
Definition with_option (o : string) (opts : Options) : Options :=
  {| AttrTimeout := AttrTimeout opts;
     EntryTimeout := EntryTimeout opts;
     Debug := Debug opts || (o =? "debug")%string;
     NullPermissions := NullPermissions opts || (o =? "null")%string;
     AllowOther := AllowOther opts || (o =? "allow_other")%string;
     MountOptions_Options := MountOptions_Options opts ++ mount_words o;
     MountOptions_Name := MountOptions_Name opts |}.

(** ** At the mount

    What happens to a request before a handler runs.  Linux refuses a
    modifying request on a mount that carries the option [ro] with EROFS
    and does not send it.  It resolves the path of an open(2) itself: for
    a target that is not there it sends CREATE when O_CREAT is given, for
    one that is there it sends OPEN, with the flags of the call less
    O_CREAT, O_EXCL and O_NOCTTY (fuse_send_open), and it answers
    O_CREAT|O_EXCL on an existing target with EEXIST.  go-fuse's bridge
    calls the handler with a [fuse.Context] made of the caller in the
    request header.  [MutNode] declares no [Create]: the method of the
    embedded [fs.LoopbackNode] is promoted. *)

Definition EEXIST : Errno := 17.
Definition EROFS : Errno := 30.
Definition O_EXCL : Z := 128.
Definition O_NOCTTY : Z := 256.

Definition request_context (c : Caller) : Context := {| ctxCaller := Some c |}.

Definition open_request_flags (flags : Z) : Z :=
  Z.ldiff flags (Z.lor O_CREAT (Z.lor O_EXCL O_NOCTTY)).

(** Whether [fs.Mount] was given [ro] among the mount options. *)
Definition read_only (opts : Options) : bool :=
  existsb (fun o => (o =? "ro")%string) (MountOptions_Options opts).

(** An open that asks for write access: access mode other than O_RDONLY,
    or O_TRUNC. *)
Definition wants_write (flags : Z) : bool :=
  negb (Z.land flags 3 =? 0) || negb (Z.land flags O_TRUNC =? 0).

Class Creating (B : Backing) : Type := {
  (* LoopbackNode.Create(ctx, name, flags, mode, out): handle, fuse flags,
     errno *)
  LoopbackNode_Create :
    MutNode -> string -> Z -> Z -> Store -> OpenReply FileHandle * Store
}.

Section Mount.
Context {B : Backing} {K : Creating B}.

(** The promoted method. *)
Definition Create (n : MutNode) (ctx : Context) (name : string)
                  (flags mode : Z) : M (OpenReply FileHandle) :=
  call (LoopbackNode_Create n name flags mode).

(** One of the six modifying requests on the node [n] of the mount. *)
Definition at_mount (opts : Options) (g : Globals) (n : MutNode) (c : Caller)
                    (r : Request) : M Errno :=
  if read_only opts then ret EROFS
  else serve g n (request_context c) r.

(** An open(2) of an object that is there, [n] its node. *)
Definition open_node_at_mount (opts : Options) (g : Globals) (n : MutNode)
                              (c : Caller) (flags : Z)
  : M (OpenReply FileHandle) :=
  if read_only opts && wants_write flags then ret (None, 0, EROFS)
  else Open g n (request_context c) (open_request_flags flags).

(** The lookup of the embedded node finds an object at the path: it stats
    the path without following a link, as [unix_Statx] does. *)
Definition found (path : string) (s : Store) : bool :=
  match unix_Statx path s with
  | Ok _ => true
  | Err _ => false
  end.

(** An open(2) of [name] in the directory of the node [parent]; [child] is
    the node of the entry when it is there. *)
Definition open_at_mount (opts : Options) (g : Globals)
                         (parent child : MutNode) (name : string)
                         (c : Caller) (flags mode : Z)
  : M (OpenReply FileHandle) :=
  here <- read (found (actualPath parent name)) ;;
  if here then
    if negb (Z.land flags O_CREAT =? 0) && negb (Z.land flags O_EXCL =? 0)
    then ret (None, 0, EEXIST)
    else open_node_at_mount opts g child c flags
  else if negb (Z.land flags O_CREAT =? 0) then
    if read_only opts then ret (None, 0, EROFS)
    else Create parent (request_context c) name (Z.ldiff flags O_NOCTTY) mode
  else ret (None, 0, ENOENT).

(** The errno of a reply, for a caller that tries again. *)
Definition errno_of {A : Type} (m : M (A * Errno)) : M Errno :=
  r <- m ;;
  ret (snd r).

End Mount.

Definition Toy_creating : Creating Toy.backing :=
  @Build_Creating Toy.backing Toy_Create.

(** * Properties *)

(** ** Elapsed time *)

Lemma Sub_exact (t u : Time) :
  minDuration <= t - u <= maxDuration -> Sub t u = t - u.
Proof.
  intros [Hlo Hhi]. unfold Sub.
  destruct (Z.ltb_spec (t - u) minDuration); [lia|].
  destruct (Z.ltb_spec maxDuration (t - u)); [lia|].
  reflexivity.
Qed.

Lemma Sub_range (t u : Time) : minDuration <= Sub t u <= maxDuration.
Proof.
  unfold Sub.
  destruct (Z.ltb_spec (t - u) minDuration).
  - unfold minDuration, maxDuration; lia.
  - destruct (Z.ltb_spec maxDuration (t - u)); [|lia].
    unfold minDuration, maxDuration; lia.
Qed.

Lemma Sub_monotone (t t' u : Time) : t <= t' -> Sub t u <= Sub t' u.
Proof.
  intros Hle. unfold Sub.
  destruct (Z.ltb_spec (t - u) minDuration);
    destruct (Z.ltb_spec (t' - u) minDuration);
    destruct (Z.ltb_spec maxDuration (t - u));
    destruct (Z.ltb_spec maxDuration (t' - u));
    unfold minDuration, maxDuration in *; lia.
Qed.

(** ** The decision *)

Section Decision.
Context {B : Backing}.
Variable g : Globals.

Lemma with_log_nil (w : World) : with_log w [] = w.
Proof. destruct w; unfold with_log; simpl. now rewrite app_nil_r. Qed.

Lemma deny_refuse_answers (ctx : Context) (path : string) (w : World) :
  answers g ctx ->
  deny_refuse g path (FromContext ctx) w
  = Return EACCES (with_log w (refusal_lines g ctx path)).
Proof.
  intros Hans. unfold deny_refuse, refusal_lines, answers in *.
  destruct (Log g); simpl.
  - destruct (FromContext ctx) as [c|]; [|now exfalso; apply Hans].
    reflexivity.
  - unfold ret. now rewrite with_log_nil.
Qed.

(** [deny], when it answers, as a function of the lookup and the clock. *)
Lemma deny_answers (n : MutNode) (ctx : Context) (name : string) (w : World) :
  answers g ctx ->
  deny g n ctx name w =
  match btime (actualPath n name) (store w) with
  | Ok bt =>
      let since := Since (now w) bt in
      if since <? Grace g
      then Return OK (with_log w (grant_lines g ctx (actualPath n name)
                                    (wrap64 (Grace g - since))))
      else Return EACCES (with_log w (refusal_lines g ctx (actualPath n name)))
  | Err _ => Return EACCES (with_log w (refusal_lines g ctx (actualPath n name)))
  end.
Proof.
  intros Hans. unfold deny, bind, read.
  destruct (btime (actualPath n name) (store w)) as [bt|e].
  - unfold time_Now. cbv zeta.
    destruct (Since (now w) bt <? Grace g).
    + unfold grant_lines, answers in *. destruct (Log g); simpl.
      * destruct (FromContext ctx) as [c|]; [|now exfalso; apply Hans].
        reflexivity.
      * unfold ret. now rewrite with_log_nil.
    + now apply deny_refuse_answers.
  - now apply deny_refuse_answers.
Qed.

(** [deny] never changes the backing store or the clock. *)
Lemma deny_frame (n : MutNode) (ctx : Context) (name : string) (w w' : World)
      (errno : Errno) :
  deny g n ctx name w = Return errno w' ->
  store w' = store w /\ now w' = now w /\ (errno = OK \/ errno = EACCES).
Proof.
  unfold deny, deny_refuse, bind, read, time_Now, deref, log_Printf, ret, panic.
  destruct (btime (actualPath n name) (store w)) as [bt|e]; cbv zeta;
    [destruct (Since (now w) bt <? Grace g)|];
    destruct (Log g); simpl; try destruct (FromContext ctx); simpl;
    intros H; inversion H; subst; simpl; auto.
Qed.

(** Whatever [deny] returns agrees with the lookup and the clock. *)
Lemma deny_sound (n : MutNode) (ctx : Context) (name : string) (w : World)
      (errno : Errno) (w' : World) :
  deny g n ctx name w = Return errno w' ->
  match btime (actualPath n name) (store w) with
  | Ok bt => errno = if Since (now w) bt <? Grace g then OK else EACCES
  | Err _ => errno = EACCES
  end.
Proof.
  unfold deny, deny_refuse, bind, read, time_Now, deref, log_Printf, ret, panic.
  destruct (btime (actualPath n name) (store w)) as [bt|e]; cbv zeta;
    [destruct (Since (now w) bt <? Grace g)|];
    destruct (Log g); simpl; try destruct (FromContext ctx); simpl;
    intros H; inversion H; subst; reflexivity.
Qed.

End Decision.

(** C1.  Grace boundary.  Let the creation-time lookup for the path that
    [deny] consults succeed with birth time [bt], and let
    [e = time.Since(bt)], which is [now - bt] whenever that fits a
    Duration.  Then [deny] returns [fs.OK] only if [e < Grace] and
    [EACCES] only if [Grace <= e]; and whenever it can answer (logging
    off, or a caller in the context) it returns [fs.OK] if [e < Grace] and
    [EACCES] if [Grace <= e], so at [e = Grace] it refuses.  Every
    destructive handler takes its verdict from [deny]. *)
Theorem deny_grace_boundary {B : Backing} (g : Globals) (n : MutNode)
        (ctx : Context) (name : string) (w : World) (bt : Time) :
  btime (actualPath n name) (store w) = Ok bt ->
  let e := Since (now w) bt in
  (minDuration <= now w - bt <= maxDuration -> e = now w - bt)
  /\ (forall w', deny g n ctx name w = Return OK w' -> e < Grace g)
  /\ (forall w', deny g n ctx name w = Return EACCES w' -> Grace g <= e)
  /\ (answers g ctx ->
      ((exists w', deny g n ctx name w = Return OK w') <-> e < Grace g)
      /\ ((exists w', deny g n ctx name w = Return EACCES w')
          <-> Grace g <= e)
      /\ (e = Grace g ->
          exists w', deny g n ctx name w = Return EACCES w')).
Proof.
  intros Hbt e.
  pose proof (deny_sound g n ctx name w) as Hsound. rewrite Hbt in Hsound.
  fold e in Hsound.
  split; [apply Sub_exact|].
  split; [|split].
  - intros w' H. apply Hsound in H.
    destruct (Z.ltb_spec e (Grace g)); [assumption | discriminate H].
  - intros w' H. apply Hsound in H.
    destruct (Z.ltb_spec e (Grace g)); [discriminate H | assumption].
  - intros Hans. rewrite (deny_answers g n ctx name w Hans), Hbt. cbv zeta.
    fold e. destruct (Z.ltb_spec e (Grace g)) as [Hlt|Hge].
    + repeat split.
      * intros _; exact Hlt.
      * intros _; eexists; reflexivity.
      * intros [w' H]; discriminate H.
      * intros Hle; lia.
      * intros Heq; lia.
    + repeat split.
      * intros [w' H]; discriminate H.
      * intros Hlt; lia.
      * intros _; exact Hge.
      * intros _; eexists; reflexivity.
      * intros _; eexists; reflexivity.
Qed.

(** C2.  Fail closed.  When the creation-time lookup fails, with any
    error, [deny] returns nothing but [EACCES], whatever [Grace] is, and
    leaves the backing store as it was; and it does return [EACCES]
    whenever it can answer (logging off, or a caller in the context). *)
Theorem deny_fail_closed {B : Backing} (g : Globals) (n : MutNode)
        (ctx : Context) (name : string) (w : World) (err : Errno) :
  btime (actualPath n name) (store w) = Err err ->
  (forall errno w', deny g n ctx name w = Return errno w' ->
                    errno = EACCES /\ store w' = store w)
  /\ (answers g ctx ->
      exists w', deny g n ctx name w = Return EACCES w'
                 /\ store w' = store w).
Proof.
  intros Hbt. split.
  - intros errno w' H. split.
    + pose proof (deny_sound g n ctx name w errno w' H) as Hs.
      now rewrite Hbt in Hs.
    + now destruct (deny_frame g n ctx name w w' errno H).
  - intros Hans. rewrite (deny_answers g n ctx name w Hans), Hbt.
    eexists; split; reflexivity.
Qed.

(** ** The handlers *)

Section Gate.
Context {B : Backing}.
Variable g : Globals.

(** Every errno handler is [deny] on the consulted name, then the embedded
    node's method. *)
Lemma serve_gate (n : MutNode) (ctx : Context) (r : Request) :
  serve g n ctx r =
  (errno <- deny g n ctx (consulted r) ;;
   if negb (errno =? OK) then ret errno else call (forward n r)).
Proof. destruct r; reflexivity. Qed.

Lemma serve_refused (n : MutNode) (ctx : Context) (r : Request)
      (w w' : World) :
  deny g n ctx (consulted r) w = Return EACCES w' ->
  serve g n ctx r w = Return EACCES w' /\ store w' = store w.
Proof.
  intros Hd. rewrite serve_gate. unfold bind. rewrite Hd. simpl.
  split; [reflexivity|]. now destruct (deny_frame g _ _ _ _ _ _ Hd).
Qed.

Lemma serve_granted (n : MutNode) (ctx : Context) (r : Request)
      (w w' : World) :
  deny g n ctx (consulted r) w = Return OK w' ->
  serve g n ctx r w = call (forward n r) w'.
Proof.
  intros Hd. rewrite serve_gate. unfold bind. rewrite Hd. reflexivity.
Qed.

(** X5.  Each of the six errno handlers, when it can answer and the birth
    time of the path it consults is found, forwards to the embedded node
    exactly within the grace period of that path and returns what the
    embedded node returns; from the end of the grace period on it returns
    EACCES and leaves the backing store as it was. *)
Lemma serve_decided (n : MutNode) (ctx : Context) (r : Request) (w : World)
      (bt : Time) :
  answers g ctx ->
  btime (actualPath n (consulted r)) (store w) = Ok bt ->
  serve g n ctx r w =
  let path := actualPath n (consulted r) in
  let since := Since (now w) bt in
  if since <? Grace g
  then call (forward n r)
            (with_log w (grant_lines g ctx path (wrap64 (Grace g - since))))
  else Return EACCES (with_log w (refusal_lines g ctx path)).
Proof.
  intros Hans Hbt. rewrite serve_gate. unfold bind.
  rewrite (deny_answers g n ctx (consulted r) w Hans), Hbt. cbv zeta.
  destruct (Since (now w) bt <? Grace g); reflexivity.
Qed.

Lemma out_of_grace_refused (n : MutNode) (ctx : Context) (name : string)
      (w : World) :
  answers g ctx ->
  out_of_grace g (actualPath n name) w ->
  deny g n ctx name w
  = Return EACCES (with_log w (refusal_lines g ctx (actualPath n name))).
Proof.
  intros Hans Hout. rewrite (deny_answers g n ctx name w Hans).
  unfold out_of_grace in Hout.
  destruct (btime (actualPath n name) (store w)) as [bt|e]; [|reflexivity].
  cbv zeta. destruct (Z.ltb_spec (Since (now w) bt) (Grace g)); [lia|].
  reflexivity.
Qed.

Lemma out_of_grace_later (path : string) (w : World) (dt : Duration)
      (l : list LogLine) :
  0 <= dt ->
  out_of_grace g path w ->
  out_of_grace g path {| now := now w + dt; store := store w;
                         logged := l |}.
Proof.
  intros Hdt. unfold out_of_grace; simpl.
  destruct (btime path (store w)) as [bt|e]; [|trivial].
  intros Hge. unfold Since in *.
  pose proof (Sub_monotone (now w) (now w + dt) bt). lia.
Qed.

(** X3.  A refused request stays refused however often and however much
    later it is tried again: once the grace period of the consulted path
    is over, or its birth time cannot be found, every later try of the
    same request returns EACCES, and the backing store stays as it was. *)
Lemma refused_for_good (n : MutNode) (ctx : Context) (r : Request)
      (waits : list Duration) :
  answers g ctx ->
  Forall (fun dt => 0 <= dt) waits ->
  forall w : World,
    out_of_grace g (actualPath n (consulted r)) w ->
    exists w',
      retry (serve g n ctx r) waits w
      = Return (repeat EACCES (List.length waits)) w'
      /\ store w' = store w.
Proof.
  intros Hans Hwaits. induction Hwaits as [|dt waits Hdt _ IH]; intros w Hout.
  - exists w. split; reflexivity.
  - simpl retry. unfold bind at 1. unfold sleep at 1.
    set (w1 := {| now := now w + dt; store := store w; logged := logged w |}).
    assert (Hout1 : out_of_grace g (actualPath n (consulted r)) w1)
      by now apply out_of_grace_later.
    pose proof (out_of_grace_refused n ctx (consulted r) w1 Hans Hout1) as Hd.
    destruct (serve_refused n ctx r _ _ Hd) as [Hs Hst].
    unfold bind at 1. rewrite Hs.
    set (w2 := with_log w1 _) in *.
    assert (Hout2 : out_of_grace g (actualPath n (consulted r)) w2).
    { replace w2 with {| now := now w1 + 0; store := store w1;
                         logged := logged w2 |}.
      - apply out_of_grace_later; [lia | exact Hout1].
      - unfold w2, with_log; simpl. f_equal. lia. }
    destruct (IH w2 Hout2) as [w' [Hr Hst']].
    exists w'. unfold bind. rewrite Hr. simpl. split; [reflexivity|].
    rewrite Hst'. exact Hst.
Qed.

End Gate.

(** ** Open *)

Lemma create_bit_survives (flags : Z) :
  Z.land flags O_CREAT <> 0 -> Z.ldiff flags 32768 <> O_RDONLY.
Proof.
  intros Hc Hz. apply Hc.
  replace (Z.land flags O_CREAT)
    with (Z.land (Z.ldiff flags 32768) O_CREAT).
  - rewrite Hz. reflexivity.
  - apply Z.bits_inj'. intros k Hk.
    rewrite !Z.land_spec, Z.ldiff_spec.
    destruct (Z.eq_dec k 15) as [->|Hne].
    + change (Z.testbit O_CREAT 15) with false. now rewrite !andb_false_r.
    + replace (Z.testbit 32768 k) with false.
      * now rewrite andb_true_r.
      * symmetry. change 32768 with (2 ^ 15).
        apply Z.pow2_bits_false. lia.
Qed.

(** Clearing the bit 0x8000 leaves nothing only of 0 and of 0x8000. *)
Lemma only_largefile (flags : Z) :
  Z.ldiff flags 32768 = 0 -> flags = 0 \/ flags = 32768.
Proof.
  intros Hz.
  assert (Hbits : forall k, 0 <= k -> k <> 15 -> Z.testbit flags k = false).
  { intros k Hk Hne.
    assert (Hk0 : Z.testbit (Z.ldiff flags 32768) k = false)
      by (rewrite Hz; apply Z.bits_0).
    rewrite Z.ldiff_spec in Hk0.
    replace (Z.testbit 32768 k) with false in Hk0.
    - now rewrite andb_true_r in Hk0.
    - symmetry. change 32768 with (2 ^ 15). apply Z.pow2_bits_false. lia. }
  destruct (Z.testbit flags 15) eqn:H15.
  - right. apply Z.bits_inj'. intros k Hk.
    destruct (Z.eq_dec k 15) as [->|Hne]; [now rewrite H15|].
    rewrite (Hbits k Hk Hne). symmetry.
    change 32768 with (2 ^ 15). apply Z.pow2_bits_false. lia.
  - left. apply Z.bits_inj'. intros k Hk. rewrite Z.bits_0.
    destruct (Z.eq_dec k 15) as [->|Hne]; [exact H15 | now apply Hbits].
Qed.

Section OpenCases.
Context {B : Backing}.
Variable g : Globals.

Lemma Open_attempt (n : MutNode) (ctx : Context) (flags : Z) (w : World) :
  Z.land flags O_CREAT <> 0 ->
  Open g n ctx flags w =
  let r := fst (LoopbackNode_Open n flags (store w)) in
  if snd r =? ENOENT then Return r (attempted n flags w)
  else Open_switch g n ctx flags (attempted n flags w).
Proof.
  intros Hc. unfold Open, attempted.
  destruct (Z.eqb_spec (Z.land flags O_CREAT) 0) as [H0|_]; [contradiction|].
  cbn [negb]. unfold bind, call. cbv beta.
  destruct (LoopbackNode_Open n flags (store w)) as [r s]; simpl.
  destruct (snd r =? ENOENT); reflexivity.
Qed.

(** [Open] called with the O_CREAT bit set, which an OPEN request of the
    mount does not carry.  The open is first tried on the backing store
    with the given flags.  If the backing store answers ENOENT, that answer
    goes back, whatever [Grace] and [Log] are and without a call of
    [deny].  Otherwise, with a write-intent flag the call is decided by
    [deny] on the node itself, and with none it is refused with EACCES
    whatever the grace period. *)
Theorem Open_with_create_flag (n : MutNode) (ctx : Context) (flags : Z)
        (w : World) :
  Z.land flags O_CREAT <> 0 ->
  let r := fst (LoopbackNode_Open n flags (store w)) in
  let w1 := {| now := now w;
               store := snd (LoopbackNode_Open n flags (store w));
               logged := logged w |} in
  (snd r = ENOENT -> Open g n ctx flags w = Return r w1)
  /\ (snd r <> ENOENT -> write_intent flags = true ->
      Open g n ctx flags w =
      (errno <- deny g n ctx "" ;;
       if negb (errno =? OK) then ret (None, 0, errno)
       else call (LoopbackNode_Open n flags)) w1)
  /\ (snd r <> ENOENT -> write_intent flags = false ->
      Open g n ctx flags w = Return (None, 0, EACCES) w1).
Proof.
  intros Hc r w1. rewrite (Open_attempt n ctx flags w Hc). cbv zeta.
  fold r. change (attempted n flags w) with w1.
  repeat split.
  - intros He. rewrite He. reflexivity.
  - intros Hne Hw. destruct (Z.eqb_spec (snd r) ENOENT); [contradiction|].
    unfold Open_switch. rewrite Hw. reflexivity.
  - intros Hne Hw. destruct (Z.eqb_spec (snd r) ENOENT); [contradiction|].
    unfold Open_switch. rewrite Hw. cbv zeta.
    destruct (Z.eqb_spec (Z.ldiff flags 32768) O_RDONLY) as [Hz|_].
    + now apply create_bit_survives in Hz.
    + reflexivity.
Qed.

(** An open for writing that carries O_CREAT and is refused has already
    been through [LoopbackNode.Open] with the caller's flags. *)
Lemma Open_refused_after_attempt (n : MutNode) (ctx : Context) (flags : Z)
      (w w' : World) :
  Z.land flags O_CREAT <> 0 ->
  write_intent flags = true ->
  snd (fst (LoopbackNode_Open n flags (store w))) <> ENOENT ->
  deny g n ctx "" (attempted n flags w) = Return EACCES w' ->
  Open g n ctx flags w = Return (None, 0, EACCES) w'
  /\ store w' = snd (LoopbackNode_Open n flags (store w)).
Proof.
  intros Hc Hw Hne Hd. rewrite (Open_attempt n ctx flags w Hc). cbv zeta.
  destruct (Z.eqb_spec (snd (fst (LoopbackNode_Open n flags (store w))))
                       ENOENT); [contradiction|].
  unfold Open_switch. rewrite Hw. unfold bind. rewrite Hd. simpl.
  split; [reflexivity|]. now destruct (deny_frame g _ _ _ _ _ _ Hd).
Qed.

(** Without O_CREAT a refused open leaves the backing store alone. *)
Lemma Open_refused_plain (n : MutNode) (ctx : Context) (flags : Z)
      (w w' : World) :
  Z.land flags O_CREAT = 0 ->
  write_intent flags = true ->
  deny g n ctx "" w = Return EACCES w' ->
  Open g n ctx flags w = Return (None, 0, EACCES) w'
  /\ store w' = store w.
Proof.
  intros Hc Hw Hd. unfold Open. rewrite Hc. simpl.
  unfold Open_switch. rewrite Hw. unfold bind. rewrite Hd. simpl.
  split; [reflexivity|]. now destruct (deny_frame g _ _ _ _ _ _ Hd).
Qed.

End OpenCases.

(** ** A context without a caller *)

(** C7, at the input where it fails.  With logging on and a context that
    carries no caller, [deny] dereferences the nil caller while it builds
    the arguments of [log.Printf]: it panics, in the granting branch as in
    the refusing one, and so does every handler that asks it. *)
Theorem deny_panics_without_caller {B : Backing} (g : Globals) (n : MutNode)
        (ctx : Context) (w : World) :
  Log g = true ->
  FromContext ctx = None ->
  (forall name, deny g n ctx name w = Panic w)
  /\ (forall r, serve g n ctx r w = Panic w)
  /\ (forall flags, Z.land flags O_CREAT = 0 -> write_intent flags = true ->
                    Open g n ctx flags w = Panic w).
Proof.
  intros Hlog Hnil.
  assert (Hdeny : forall name, deny g n ctx name w = Panic w).
  { intros name. unfold deny, deny_refuse, bind, read, time_Now.
    rewrite Hlog, Hnil. simpl.
    destruct (btime (actualPath n name) (store w)) as [bt|e];
      [destruct (Since (now w) bt <? Grace g)|]; reflexivity. }
  repeat split.
  - exact Hdeny.
  - intros r. rewrite serve_gate. unfold bind. now rewrite Hdeny.
  - intros flags Hc Hw. unfold Open. rewrite Hc. simpl.
    unfold Open_switch. rewrite Hw. unfold bind. now rewrite Hdeny.
Qed.

(** The revision before the grace period tests [ok]: it refuses without a
    panic whatever the context carries. *)
Lemma LogOnly_deny_refuses {B : Backing} (n : LogOnly.MutNode) (ctx : Context)
      (name : string) (w : World) :
  exists w', LogOnly.deny n ctx name w = Return EACCES w'
             /\ store w' = store w.
Proof.
  unfold LogOnly.deny. destruct (LogOnly.log n); simpl.
  - destruct (FromContext ctx) as [c|].
    + destruct (negb (name =? "")%string); eexists; split; reflexivity.
    + eexists; split; reflexivity.
  - eexists; split; reflexivity.
Qed.

(** ** The creation-time lookup *)

(** C8, as the code has it.  [btime] fails exactly when statx fails, with
    statx's error; when statx succeeds it returns the instant in the
    [Btime] field and nothing else of the result: not the mask, so it does
    not find out whether a birth time was reported at all, and not the
    change, modification or access time. *)
Theorem btime_is_statx_Btime {B : Backing} (name : string) (s : Store) :
  (forall e, unix_Statx name s = Err e <-> btime name s = Err e)
  /\ (forall statx, unix_Statx name s = Ok statx ->
        btime name s = Ok (Unix (Sec (Btime statx)) (Nsec (Btime statx))))
  /\ (forall statx s' statx',
        unix_Statx name s = Ok statx ->
        unix_Statx name s' = Ok statx' ->
        Btime statx = Btime statx' ->
        btime name s = btime name s').
Proof.
  unfold btime. repeat split.
  - intros H. now rewrite H.
  - destruct (unix_Statx name s); intros H; [discriminate H | congruence].
  - intros statx H. now rewrite H.
  - intros statx s' statx' H H' Heq. now rewrite H, H', Heq.
Qed.

(** ** main *)

Section MainFacts.
Context {R : Runtime}.

#[local] Arguments option_case : simpl never.

Lemma check_dir_bad (d : string) : not_a_directory d -> check_dir d = Exit 1.
Proof.
  unfold not_a_directory, check_dir.
  destruct (os_Stat d) as [[|]|e]; [contradiction| |]; reflexivity.
Qed.

Lemma check_dir_cases (d : string) :
  check_dir d = Exit 1 \/ check_dir d = Go_on tt.
Proof.
  unfold check_dir. destruct (os_Stat d) as [[|]|e]; simpl; auto.
Qed.

(** What one option does to the package variables does not depend on the
    mount options gathered so far. *)
Lemma option_case_globals (o : string) (opts opts' : Options) (g : Globals) :
  globals_of (option_case o (opts, g)) = globals_of (option_case o (opts', g)).
Proof.
  unfold option_case.
  repeat match goal with
         | |- context [if ?b then _ else _] => destruct b; try reflexivity
         end.
  destruct (time_ParseDuration _); reflexivity.
Qed.

Lemma option_case_ro (opts : Options) (g : Globals) :
  option_case "ro" (opts, g) = Go_on (append_option "ro" opts, g).
Proof. reflexivity. Qed.

Lemma option_loop_without_ro (os : list string) :
  forall (opts opts' : Options) (g : Globals),
    globals_of (option_loop os (opts, g))
    = globals_of (option_loop (without_ro os) (opts', g)).
Proof.
  induction os as [|o os IH]; intros opts opts' g; [reflexivity|].
  change (without_ro (o :: os))
    with (if negb (o =? "ro")%string then o :: without_ro os
          else without_ro os).
  change (option_loop (o :: os) (opts, g))
    with (and_then (option_case o (opts, g)) (option_loop os)).
  destruct (String.eqb_spec o "ro") as [->|Hne]; cbn [negb].
  - rewrite option_case_ro. cbn [and_then]. apply IH.
  - change (option_loop (o :: without_ro os) (opts', g))
      with (and_then (option_case o (opts', g))
                     (option_loop (without_ro os))).
    pose proof (option_case_globals o opts opts' g) as Hg.
    destruct (option_case o (opts, g)) as [[o1 g1]|c];
      destruct (option_case o (opts', g)) as [[o2 g2]|c'];
      simpl in Hg; try discriminate Hg.
    + injection Hg as ->. cbn [and_then]. apply IH.
    + exact Hg.
Qed.

(** One option adds [ro] to the mount options exactly when it is [ro]. *)
Lemma option_case_mount_ro (o : string) (opts opts' : Options)
      (g g' : Globals) :
  option_case o (opts, g) = Go_on (opts', g') ->
  (In "ro" (MountOptions_Options opts')
   <-> In "ro" (MountOptions_Options opts) \/ o = "ro").
Proof.
  unfold option_case.
  destruct (String.eqb_spec o "debug") as [->|_];
    [intros H; injection H as <- _; simpl; split;
     [auto | intros [H|H]; [exact H | discriminate H]]|].
  destruct (String.eqb_spec o "null") as [->|_];
    [intros H; injection H as <- _; simpl; split;
     [auto | intros [H|H]; [exact H | discriminate H]]|].
  destruct (String.eqb_spec o "allow_other") as [->|_].
  { intros H; injection H as <- _; simpl. rewrite in_app_iff. simpl. split.
    - intros [H|[H|[]]]; [auto | discriminate H].
    - intros [H|H]; [auto | discriminate H]. }
  destruct (String.eqb_spec o "ro") as [->|Hro].
  { intros H; injection H as <- _; simpl. rewrite in_app_iff. simpl. split.
    - intros [H|_]; auto.
    - intros [H|_]; auto. }
  destruct (String.eqb_spec o "log") as [->|_];
    [intros H; injection H as <- _; simpl; split;
     [auto | intros [H|H]; [exact H | discriminate H]]|].
  destruct (strings_HasPrefix o "grace=").
  - destruct (negb _); [intros H; discriminate H|].
    destruct (time_ParseDuration _); [|intros H; discriminate H].
    intros H; injection H as <- _. split; [auto | intros [H|H]; tauto].
  - intros H; injection H as <- _. split; [auto | intros [H|H]; tauto].
Qed.

Lemma option_loop_mount_ro (os : list string) :
  forall (opts opts' : Options) (g g' : Globals),
    option_loop os (opts, g) = Go_on (opts', g') ->
    (In "ro" (MountOptions_Options opts')
     <-> In "ro" (MountOptions_Options opts) \/ In "ro" os).
Proof.
  induction os as [|o os IH]; intros opts opts' g g'; simpl.
  - intros H; inversion H; subst. tauto.
  - destruct (option_case o (opts, g)) as [[o1 g1]|c] eqn:Hcase;
      simpl; [|intros H; discriminate H].
    intros Hloop. rewrite (IH _ _ _ _ Hloop).
    rewrite (option_case_mount_ro _ _ _ _ _ Hcase).
    split; intros H; intuition auto.
Qed.

(** The node itself never reads [ro].  The option reaches the mount layer
    and nothing else: it is among the mount options handed to [fs.Mount]
    exactly when it was given, while [Log] and [Grace], all that [deny]
    reads, come out as for the same option list without any [ro].  So the
    decision of a request that reaches a handler is the same with and
    without [ro]. *)
Theorem ro_is_only_a_mount_option (olddir : string) (flagOpts : list string) :
  globals_of (configure olddir flagOpts)
  = globals_of (configure olddir (without_ro flagOpts))
  /\ (forall opts g,
        configure olddir flagOpts = Go_on (opts, g) ->
        (In "ro" (MountOptions_Options opts) <-> In "ro" flagOpts))
  /\ (forall opts g opts' g',
        configure olddir flagOpts = Go_on (opts, g) ->
        configure olddir (without_ro flagOpts) = Go_on (opts', g') ->
        forall (B : Backing) n ctx name w,
          deny g n ctx name w = deny g' n ctx name w).
Proof.
  assert (Hg : globals_of (configure olddir flagOpts)
               = globals_of (configure olddir (without_ro flagOpts))).
  { unfold configure.
    pose proof (option_loop_without_ro flagOpts initial_Options
                  initial_Options initial_Globals) as H.
    destruct (option_loop flagOpts _) as [[o1 g1]|c];
      destruct (option_loop (without_ro flagOpts) _) as [[o2 g2]|c'];
      simpl in *; congruence. }
  split; [exact Hg|]. split.
  - intros opts g. unfold configure.
    destruct (option_loop flagOpts _) as [[o1 g1]|c] eqn:Hloop;
      simpl; [|intros H; discriminate H].
    intros H; injection H as <- _. simpl.
    rewrite in_app_iff, (option_loop_mount_ro _ _ _ _ _ Hloop). simpl.
    split.
    + intros [[[]|H]|[H|[]]]; [exact H | discriminate H].
    + intros H; auto.
  - intros opts g opts' g' H H'. rewrite H, H' in Hg. simpl in Hg.
    injection Hg as ->. reflexivity.
Qed.

(** C9, as the code has it.  With fewer than two positional arguments
    [main] prints the usage and calls [os.Exit(2)].  With two or more, an
    argument among the first two that cannot be found or is not a
    directory ends the process through [log.Fatalf], with exit code 1. *)
Theorem main_exit_status (args flagOpts : list string) :
  ((List.length args < 2)%nat -> main args flagOpts = Exit 2)
  /\ ((2 <= List.length args)%nat ->
      not_a_directory (nth 0 args "") \/ not_a_directory (nth 1 args "") ->
      main args flagOpts = Exit 1).
Proof.
  unfold main. split.
  - intros Hlt. apply Nat.ltb_lt in Hlt. now rewrite Hlt.
  - intros Hge Hbad.
    destruct (Nat.ltb_spec (List.length args) 2) as [Hlt|_]; [lia|].
    simpl check_dirs. destruct Hbad as [Hbad|Hbad].
    + now rewrite (check_dir_bad _ Hbad).
    + destruct (check_dir_cases (nth 0 args "")) as [-> | ->];
        [reflexivity|]. simpl. now rewrite (check_dir_bad _ Hbad).
Qed.

End MainFacts.

(** ** More on the decision and the handlers *)

Section DecisionMore.
Context {B : Backing}.

(** If [deny] returns, it could answer. *)
Lemma deny_returns_answers (g : Globals) (n : MutNode) (ctx : Context)
      (name : string) (w w' : World) (errno : Errno) :
  deny g n ctx name w = Return errno w' -> answers g ctx.
Proof.
  intros H Hlog Hnil.
  unfold deny, deny_refuse, bind, read, time_Now in H.
  rewrite Hlog, Hnil in H. simpl in H.
  destruct (btime (actualPath n name) (store w)) as [bt|e];
    [destruct (Since (now w) bt <? Grace g)|]; discriminate H.
Qed.

(** X1.  Logging does not touch the verdict.  For a request that carries a
    caller, [deny] with [Log] off returns its errno and leaves the whole
    world as it was; with [Log] on it returns the same errno, and the world
    differs by exactly one line at the end of the log. *)
Theorem logging_keeps_the_verdict (grace : Duration) (n : MutNode)
        (ctx : Context) (name : string) (w : World) (c : Caller) :
  FromContext ctx = Some c ->
  exists errno line,
    deny {| Log := false; Grace := grace |} n ctx name w = Return errno w
    /\ deny {| Log := true; Grace := grace |} n ctx name w
       = Return errno (with_log w [line])
    /\ (errno = OK \/ errno = EACCES).
Proof.
  intros Hc.
  assert (Hq : answers {| Log := false; Grace := grace |} ctx)
    by (intros H; discriminate H).
  assert (Hl : answers {| Log := true; Grace := grace |} ctx)
    by (intros _ H; rewrite Hc in H; discriminate H).
  rewrite (deny_answers _ n ctx name w Hq), (deny_answers _ n ctx name w Hl).
  unfold refusal_lines, grant_lines. simpl. rewrite Hc, with_log_nil.
  destruct (btime (actualPath n name) (store w)) as [bt|e]; cbv zeta;
    [destruct (Since (now w) bt <? grace)|];
    do 2 eexists; (split; [reflexivity|]); (split; [reflexivity|]); auto.
Qed.

(** X2.  Without a grace period.  When [Grace] is zero or less and no
    birth time lies after the clock, [deny] returns nothing but EACCES.
    The clock matters: with [Grace] zero, an object whose birth time lies
    after the clock is let through. *)
Theorem zero_grace (g : Globals) (n : MutNode) (ctx : Context)
        (name : string) (w : World) :
  Grace g <= 0 ->
  ((forall bt, btime (actualPath n name) (store w) = Ok bt -> bt <= now w) ->
   forall errno w', deny g n ctx name w = Return errno w' -> errno = EACCES)
  /\ (forall bt, btime (actualPath n name) (store w) = Ok bt ->
                 now w < bt -> Grace g = 0 -> answers g ctx ->
                 exists w', deny g n ctx name w = Return OK w').
Proof.
  intros Hg. split.
  - intros Hpast errno w' H. apply deny_sound in H.
    destruct (btime (actualPath n name) (store w)) as [bt|e]; [|exact H].
    specialize (Hpast bt eq_refl).
    destruct (Z.ltb_spec (Since (now w) bt) (Grace g)) as [Hlt|_];
      [|exact H].
    exfalso. unfold Since, Sub in Hlt.
    destruct (Z.ltb_spec (now w - bt) minDuration); [lia|].
    destruct (Z.ltb_spec maxDuration (now w - bt));
      unfold maxDuration in *; lia.
  - intros bt Hbt Hfuture Hzero Hans.
    rewrite (deny_answers g n ctx name w Hans), Hbt. cbv zeta.
    destruct (Z.ltb_spec (Since (now w) bt) (Grace g)) as [_|Hge];
      [eexists; reflexivity|].
    exfalso. unfold Since, Sub in Hge.
    destruct (Z.ltb_spec (now w - bt) minDuration);
      [unfold minDuration in *; lia|].
    destruct (Z.ltb_spec maxDuration (now w - bt));
      unfold maxDuration in *; lia.
Qed.

(** X4.  A longer grace period refuses nothing that a shorter one lets
    through: what [deny] grants under [Grace g], it grants under every
    [Grace] at least as long, logging set alike. *)
Theorem longer_grace_grants_more (g g' : Globals) (n : MutNode)
        (ctx : Context) (name : string) (w w1 : World) :
  deny g n ctx name w = Return OK w1 ->
  Grace g <= Grace g' ->
  Log g' = Log g ->
  exists w2, deny g' n ctx name w = Return OK w2 /\ store w2 = store w.
Proof.
  intros H Hle Hlog.
  pose proof (deny_returns_answers g n ctx name w w1 OK H) as Hans.
  assert (Hans' : answers g' ctx) by (unfold answers in *; now rewrite Hlog).
  apply deny_sound in H.
  rewrite (deny_answers g' n ctx name w Hans').
  destruct (btime (actualPath n name) (store w)) as [bt|e];
    [|discriminate H].
  cbv zeta.
  destruct (Z.ltb_spec (Since (now w) bt) (Grace g)) as [Hlt|_];
    [|discriminate H].
  destruct (Z.ltb_spec (Since (now w) bt) (Grace g')) as [_|Hge]; [|lia].
  eexists; split; reflexivity.
Qed.

(** X8.  What a handler can answer.  Whatever one of the six errno
    handlers returns is either EACCES with the backing store untouched, or
    the answer of the embedded [LoopbackNode]'s method, run once on the
    store as it was; the node has no errno of its own besides EACCES and
    changes the store by no other way. *)
Theorem serve_outcomes (g : Globals) (n : MutNode) (ctx : Context)
        (r : Request) (w w' : World) (errno : Errno) :
  serve g n ctx r w = Return errno w' ->
  (errno = EACCES /\ store w' = store w)
  \/ (errno, store w') = forward n r (store w).
Proof.
  rewrite serve_gate. unfold bind.
  destruct (deny g n ctx (consulted r) w) as [e w1|w1] eqn:Hd;
    [|intros H; discriminate H].
  destruct (deny_frame g n ctx (consulted r) w w1 e Hd) as [Hst [_ [He|He]]];
    subst e; simpl.
  - unfold call. rewrite Hst.
    destruct (forward n r (store w)) as [e s].
    intros H; inversion H; subst. right. reflexivity.
  - intros H; inversion H; subst. left. split; [reflexivity | exact Hst].
Qed.

(** X6.  Opening for reading.  An open that carries neither O_CREAT nor a
    write-intent flag never asks [deny]: it goes to the embedded node, with
    flags zero, exactly when its flags are zero or the bit 0x8000 alone,
    and is refused with EACCES otherwise, the world untouched.  No grace
    period, logging or missing caller changes that. *)
Theorem Open_for_reading (g : Globals) (n : MutNode) (ctx : Context)
        (flags : Z) (w : World) :
  Z.land flags O_CREAT = 0 ->
  write_intent flags = false ->
  Open g n ctx flags w =
  if (flags =? 0) || (flags =? 32768)
  then call (LoopbackNode_Open n O_RDONLY) w
  else Return (None, 0, EACCES) w.
Proof.
  intros Hc Hw. unfold Open. rewrite Hc. simpl.
  unfold Open_switch. rewrite Hw. cbv zeta.
  destruct (Z.eqb_spec (Z.ldiff flags 32768) O_RDONLY) as [Hz|Hnz].
  - rewrite Hz. apply only_largefile in Hz.
    destruct Hz as [-> | ->]; reflexivity.
  - destruct (Z.eqb_spec flags 0) as [->|_]; [now elim Hnz|].
    destruct (Z.eqb_spec flags 32768) as [->|_]; [now elim Hnz|].
    reflexivity.
Qed.

(** X7.  Opening for writing.  An open with a write-intent flag and
    without O_CREAT is decided by [deny] for the node itself: within the
    grace period of the node's own path it goes to the embedded node with
    the caller's flags unchanged, and from the end of the grace period on
    it is refused with EACCES and the backing store stays as it was. *)
Theorem Open_for_writing (g : Globals) (n : MutNode) (ctx : Context)
        (flags : Z) (w : World) (bt : Time) :
  Z.land flags O_CREAT = 0 ->
  write_intent flags = true ->
  answers g ctx ->
  btime (actualPath n "") (store w) = Ok bt ->
  let path := actualPath n "" in
  let since := Since (now w) bt in
  Open g n ctx flags w =
  if since <? Grace g
  then call (LoopbackNode_Open n flags)
            (with_log w (grant_lines g ctx path (wrap64 (Grace g - since))))
  else Return (None, 0, EACCES) (with_log w (refusal_lines g ctx path)).
Proof.
  intros Hc Hw Hans Hbt. unfold Open. rewrite Hc. simpl.
  unfold Open_switch. rewrite Hw. unfold bind.
  rewrite (deny_answers g n ctx "" w Hans), Hbt. cbv zeta.
  destruct (Since (now w) bt <? Grace g); reflexivity.
Qed.

End DecisionMore.

(** ** More on the options and on main *)

Lemma strings_Split_nonempty (s : string) (sep : ascii) :
  strings_Split s sep <> [].
Proof.
  destruct s as [|c s]; simpl; [discriminate|].
  destruct (Ascii.eqb c sep); [discriminate|].
  destruct (strings_Split s sep); discriminate.
Qed.

Lemma strings_Split_without (s : string) (sep : ascii) :
  has_byte sep s = false -> strings_Split s sep = [s].
Proof.
  induction s as [|c s IH]; simpl; [reflexivity|].
  intros H. apply orb_false_elim in H. destruct H as [Hc Hs].
  rewrite Hc, (IH Hs). reflexivity.
Qed.

Lemma strings_Split_with (s : string) (sep : ascii) :
  has_byte sep s = true -> (2 <= List.length (strings_Split s sep))%nat.
Proof.
  induction s as [|c s IH]; simpl; [discriminate|].
  destruct (Ascii.eqb c sep); simpl.
  - intros _. pose proof (strings_Split_nonempty s sep).
    destruct (strings_Split s sep); [contradiction | simpl; lia].
  - intros H. specialize (IH H).
    destruct (strings_Split s sep); simpl in *; lia.
Qed.

Section OptionFacts.
Context {R : Runtime}.

#[local] Arguments option_case : simpl never.

Lemma with_option_unrecognised (o : string) (opts : Options) :
  (o =? "debug")%string = false -> (o =? "null")%string = false ->
  (o =? "allow_other")%string = false -> (o =? "ro")%string = false ->
  with_option o opts = opts.
Proof.
  intros H1 H2 H3 H4. unfold with_option, mount_words.
  rewrite H1, H2, H3, H4, !orb_false_r, app_nil_r. now destruct opts.
Qed.

(** An option that does not start with [grace=] never ends the process. *)
Lemma option_case_plain (o : string) (opts : Options) (g : Globals) :
  strings_HasPrefix o "grace=" = false ->
  option_case o (opts, g)
  = Go_on (with_option o opts,
           {| Log := Log g || (o =? "log")%string; Grace := Grace g |}).
Proof.
  intros Hp. unfold option_case. rewrite Hp.
  destruct (String.eqb_spec o "debug") as [->|Hd].
  { unfold with_option, mount_words. simpl.
    rewrite !orb_false_r, orb_true_r, app_nil_r. now destruct g. }
  destruct (String.eqb_spec o "null") as [->|Hn].
  { unfold with_option, mount_words. simpl.
    rewrite !orb_false_r, orb_true_r, app_nil_r. now destruct g. }
  destruct (String.eqb_spec o "allow_other") as [->|Ha].
  { unfold with_option, mount_words, append_option. simpl.
    rewrite !orb_false_r, orb_true_r. now destruct g. }
  destruct (String.eqb_spec o "ro") as [->|Hr].
  { unfold with_option, mount_words, append_option. simpl.
    rewrite !orb_false_r. destruct g, opts; reflexivity. }
  destruct (String.eqb_spec o "log") as [->|Hl].
  { rewrite orb_true_r.
    rewrite with_option_unrecognised by reflexivity. reflexivity. }
  rewrite orb_false_r.
  rewrite with_option_unrecognised by (now apply String.eqb_neq).
  now destruct g.
Qed.

(** The case of the loop for an option that starts with [grace=]: the
    split at [=] gives [grace] and the pieces of the rest. *)
Lemma option_case_grace (d : string) (opts : Options) (g : Globals) :
  option_case ("grace=" ++ d) (opts, g) =
  let xs := "grace" :: strings_Split d "=" in
  if negb (Nat.eqb (List.length xs) 2) then log_Fatalf
  else match time_ParseDuration (nth 1 xs "") with
       | Err _ => log_Fatalf
       | Ok v => Go_on (opts, {| Log := Log g; Grace := v |})
       end.
Proof.
  assert (Hp : strings_HasPrefix ("grace=" ++ d) "grace=" = true)
    by (unfold strings_HasPrefix; simpl; now destruct d).
  assert (Hs : strings_Split ("grace=" ++ d) "="
               = "grace" :: strings_Split d "=") by reflexivity.
  unfold option_case. rewrite Hp, Hs.
  change ("grace=" ++ d =? "debug")%string with false.
  change ("grace=" ++ d =? "null")%string with false.
  change ("grace=" ++ d =? "allow_other")%string with false.
  change ("grace=" ++ d =? "ro")%string with false.
  change ("grace=" ++ d =? "log")%string with false.
  reflexivity.
Qed.

Lemma option_case_grace_ok (d : string) (v : Duration) (opts : Options)
      (g : Globals) :
  has_byte "="%char d = false ->
  time_ParseDuration d = Ok v ->
  option_case ("grace=" ++ d) (opts, g)
  = Go_on (opts, {| Log := Log g; Grace := v |}).
Proof.
  intros Hb Hv. rewrite option_case_grace.
  rewrite (strings_Split_without d "="%char Hb). cbv zeta. simpl.
  now rewrite Hv.
Qed.

(** X9.  The grace option.  [grace=<d>] goes on exactly when [d] holds no
    further [=] and [time.ParseDuration] takes it; then [Grace] becomes
    that duration and nothing else changes.  In every other case the
    process ends through [log.Fatalf], with exit code 1. *)
Theorem grace_option (d : string) (opts : Options) (g : Globals) :
  option_case ("grace=" ++ d) (opts, g) =
  if has_byte "="%char d then Exit 1
  else match time_ParseDuration d with
       | Ok v => Go_on (opts, {| Log := Log g; Grace := v |})
       | Err _ => Exit 1
       end.
Proof.
  rewrite option_case_grace. cbv zeta.
  destruct (has_byte "=" d) eqn:Hb.
  - pose proof (strings_Split_with d "="%char Hb) as Hlen.
    cbn [List.length].
    destruct (Nat.eqb_spec (S (List.length (strings_Split d "="))) 2);
      [lia | reflexivity].
  - rewrite (strings_Split_without d "="%char Hb). simpl.
    destruct (time_ParseDuration d); reflexivity.
Qed.

Lemma option_loop_app (os os' : list string) (st : Options * Globals) :
  option_loop (os ++ os') st
  = and_then (option_loop os st) (option_loop os').
Proof.
  revert st. induction os as [|o os IH]; intros st; [reflexivity|].
  simpl. destruct (option_case o st) as [st1|c]; simpl; [apply IH|].
  reflexivity.
Qed.

(** The loop on a list without any [grace=] option. *)
Lemma option_loop_plain (os : list string) :
  Forall (fun o => strings_HasPrefix o "grace=" = false) os ->
  forall (opts : Options) (g : Globals),
    option_loop os (opts, g)
    = Go_on (fold_left (fun a o => with_option o a) os opts,
             {| Log := Log g || given "log" os; Grace := Grace g |}).
Proof.
  induction 1 as [|o os Ho _ IH]; intros opts g.
  - simpl. rewrite orb_false_r. now destruct g.
  - simpl option_loop. rewrite (option_case_plain o opts g Ho).
    cbn [and_then]. rewrite IH. simpl. now rewrite orb_assoc.
Qed.

(** What the loop has made of the mount's options when it is through. *)
Lemma option_loop_result (os : list string) :
  forall (opts opts' : Options) (g g' : Globals),
    option_loop os (opts, g) = Go_on (opts', g') ->
    opts' = {| AttrTimeout := AttrTimeout opts;
               EntryTimeout := EntryTimeout opts;
               Debug := Debug opts || given "debug" os;
               NullPermissions := NullPermissions opts || given "null" os;
               AllowOther := AllowOther opts || given "allow_other" os;
               MountOptions_Options :=
                 MountOptions_Options opts ++ flat_map mount_words os;
               MountOptions_Name := MountOptions_Name opts |}
    /\ Log g' = Log g || given "log" os.
Proof.
  induction os as [|o os IH]; intros opts opts' g g'.
  - simpl. intros H; inversion H; subst.
    rewrite !orb_false_r, app_nil_r. split; [now destruct opts'|reflexivity].
  - simpl option_loop.
    destruct (strings_HasPrefix o "grace=") eqn:Hp.
    + (* a grace option changes [Grace] alone *)
      assert (Hcase : forall st1, option_case o (opts, g) = Go_on st1 ->
                fst st1 = opts /\ Log (snd st1) = Log g).
      { unfold option_case. rewrite Hp.
        assert (Hne : forall k, strings_HasPrefix k "grace=" = false ->
                                (o =? k)%string = false).
        { intros k Hk. apply String.eqb_neq. intros ->. congruence. }
        rewrite !Hne by reflexivity.
        destruct (negb _); [intros st1 H; discriminate H|].
        destruct (time_ParseDuration _); intros st1 H; inversion H.
        split; reflexivity. }
      assert (Hw : with_option o opts = opts /\ (o =? "log")%string = false).
      { assert (Hne : forall k, strings_HasPrefix k "grace=" = false ->
                                (o =? k)%string = false).
        { intros k Hk. apply String.eqb_neq. intros ->. congruence. }
        split; [|now apply Hne].
        apply with_option_unrecognised; now apply Hne. }
      destruct (option_case o (opts, g)) as [[o1 g1]|c] eqn:Hc;
        cbn [and_then]; [|intros H; discriminate H].
      destruct (Hcase _ eq_refl) as [Ho1 Hg1]. simpl in Ho1, Hg1. subst o1.
      intros Hloop. destruct (IH _ _ _ _ Hloop) as [Hopts Hlog].
      destruct Hw as [Hw Hl]. unfold with_option, mount_words in Hw.
      assert (Hd : (o =? "debug")%string = false
                   /\ (o =? "null")%string = false
                   /\ (o =? "allow_other")%string = false
                   /\ (o =? "ro")%string = false).
      { repeat split; apply String.eqb_neq; intros ->; discriminate Hp. }
      destruct Hd as [Hd [Hn [Ha Hr]]].
      simpl given. simpl flat_map. unfold mount_words at 1.
      rewrite Hd, Hn, Ha, Hr, Hl. simpl.
      split; [exact Hopts | now rewrite Hlog, Hg1].
    + rewrite (option_case_plain o opts g Hp). cbn [and_then].
      intros Hloop. destruct (IH _ _ _ _ Hloop) as [Hopts Hlog].
      simpl in Hopts, Hlog. simpl given. simpl flat_map.
      rewrite Hopts, Hlog, !orb_assoc, app_assoc. split; reflexivity.
Qed.

(** X11.  What [main] hands to [fs.Mount].  Whenever the options are
    read without a fatal error, the two timeouts are one second, the name
    is [mutfs], [Debug], [NullPermissions], [AllowOther] and [Log] are on
    exactly for the options [debug], [null], [allow_other] and [log] that
    were given, and the mount options are, in the order of the option
    list, [default_permissions] for each [allow_other] and [ro] for each
    [ro], with [fsname=<olddir>] at the end. *)
Theorem configure_result (olddir : string) (flagOpts : list string)
        (opts : Options) (g : Globals) :
  configure olddir flagOpts = Go_on (opts, g) ->
  opts = {| AttrTimeout := Some Second;
            EntryTimeout := Some Second;
            Debug := given "debug" flagOpts;
            NullPermissions := given "null" flagOpts;
            AllowOther := given "allow_other" flagOpts;
            MountOptions_Options :=
              flat_map mount_words flagOpts ++ ["fsname=" ++ olddir];
            MountOptions_Name := "mutfs" |}
  /\ Log g = given "log" flagOpts.
Proof.
  unfold configure.
  destruct (option_loop flagOpts (initial_Options, initial_Globals))
    as [[o1 g1]|c] eqn:Hloop; cbn [and_then]; [|intros H; discriminate H].
  destruct (option_loop_result _ _ _ _ _ Hloop) as [Ho1 Hg1].
  intros H; inversion H; subst. simpl. split; [reflexivity | exact Hg1].
Qed.

(** X12.  Only a grace option can stop the reading of the options.  A
    list without any [grace=] option is always read to the end, and leaves
    the grace period at zero. *)
Theorem configure_without_grace (olddir : string) (flagOpts : list string) :
  Forall (fun o => strings_HasPrefix o "grace=" = false) flagOpts ->
  exists opts,
    configure olddir flagOpts
    = Go_on (opts, {| Log := given "log" flagOpts; Grace := 0 |}).
Proof.
  intros Hplain. unfold configure.
  rewrite (option_loop_plain flagOpts Hplain). cbn [and_then].
  eexists. reflexivity.
Qed.

(** X13.  The last grace option counts.  After any options that were read
    without error, a further [grace=<d>] with a duration that parses sets
    [Grace] to it, whatever it was, and changes nothing else of what goes
    to the mount. *)
Theorem last_grace_counts (olddir : string) (flagOpts : list string)
        (opts : Options) (g : Globals) (d : string) (v : Duration) :
  configure olddir flagOpts = Go_on (opts, g) ->
  has_byte "="%char d = false ->
  time_ParseDuration d = Ok v ->
  configure olddir (flagOpts ++ ["grace=" ++ d])
  = Go_on (opts, {| Log := Log g; Grace := v |}).
Proof.
  unfold configure. rewrite option_loop_app.
  destruct (option_loop flagOpts (initial_Options, initial_Globals))
    as [[o1 g1]|c]; cbn [and_then]; [|intros H; discriminate H].
  intros H Hb Hv. inversion H; subst.
  cbn [option_loop]. rewrite (option_case_grace_ok d v _ _ Hb Hv).
  reflexivity.
Qed.

(** X10.  Options that no case of the loop takes up are passed over: the
    outcome is that of the list without them. *)
Theorem unrecognised_options_ignored (olddir : string)
        (flagOpts : list string) :
  configure olddir flagOpts = configure olddir (filter recognised flagOpts).
Proof.
  unfold configure. f_equal.
  generalize (initial_Options, initial_Globals).
  induction flagOpts as [|o os IH]; intros st; [reflexivity|].
  cbn [filter]. destruct (recognised o) eqn:Hr.
  - cbn [option_loop]. destruct (option_case o st); cbn [and_then];
      [apply IH | reflexivity].
  - cbn [option_loop]. unfold recognised in Hr.
    repeat (apply orb_false_elim in Hr; destruct Hr as [Hr ?]).
    destruct st as [opts g].
    rewrite option_case_plain by assumption.
    rewrite with_option_unrecognised by assumption.
    cbn [and_then].
    replace {| Log := Log g || (o =? "log")%string; Grace := Grace g |}
      with g by (destruct g; simpl;
                 match goal with H : (o =? "log")%string = false |- _ =>
                   rewrite H end; now rewrite orb_false_r).
    apply IH.
Qed.

End OptionFacts.

Section MainMore.
Context {R : Runtime}.

#[local] Arguments option_case : simpl never.

Lemma option_case_exit (o : string) (st : Options * Globals) (c : Z) :
  option_case o st = Exit c -> c = 1.
Proof.
  destruct st as [opts g]. unfold option_case.
  repeat match goal with
         | |- context [if ?b then _ else _] =>
             destruct b; try (intros H; discriminate H)
         end;
    try destruct (time_ParseDuration _);
    intros H; inversion H; reflexivity.
Qed.

Lemma configure_exit (olddir : string) (flagOpts : list string) (c : Z) :
  configure olddir flagOpts = Exit c -> c = 1.
Proof.
  unfold configure. generalize (initial_Options, initial_Globals).
  induction flagOpts as [|o os IH]; intros st; simpl.
  - intros H; discriminate H.
  - destruct (option_case o st) as [st1|c1] eqn:Hc; simpl.
    + apply IH.
    + intros H; inversion H; subst. now apply option_case_exit in Hc.
Qed.

Lemma check_dir_ok (d : string) :
  check_dir d = Go_on tt <-> os_Stat d = Ok true.
Proof.
  unfold check_dir. destruct (os_Stat d) as [[|]|e]; simpl; split;
    intros H; try reflexivity; discriminate H.
Qed.

Lemma check_dir_exit (d : string) (c : Z) : check_dir d = Exit c -> c = 1.
Proof.
  unfold check_dir. destruct (os_Stat d) as [[|]|e]; simpl; intros H;
    inversion H; reflexivity.
Qed.

(** X14.  How [main] ends.  It returns, the mount over, exactly when there
    are two arguments or more, [os.Stat] finds a directory at each of the
    first two, the options are read without a fatal error, and [fs.Mount]
    of the second argument, with the root node on the first and these
    options, succeeds.  Otherwise it exits: with code 2 exactly when there
    are fewer than two arguments, and with code 1 in every other case, a
    failed mount and a bad grace option among them. *)
Theorem main_outcome (args flagOpts : list string) :
  (main args flagOpts = Go_on tt <->
   (2 <= List.length args)%nat
   /\ os_Stat (nth 0 args "") = Ok true
   /\ os_Stat (nth 1 args "") = Ok true
   /\ exists opts g,
       configure (nth 0 args "") flagOpts = Go_on (opts, g)
       /\ exists u, fs_Mount (nth 1 args "") (New (nth 0 args "")) opts
                    = Ok u)
  /\ (forall c, main args flagOpts = Exit c ->
                (c = 2 /\ (List.length args < 2)%nat)
                \/ (c = 1 /\ (2 <= List.length args)%nat)).
Proof.
  unfold main.
  destruct (Nat.ltb_spec (List.length args) 2) as [Hlt|Hge].
  { split.
    - split; [intros H; discriminate H | intros [H _]; lia].
    - intros c H; inversion H; subst. left. split; [reflexivity | exact Hlt]. }
  cbn [check_dirs].
  pose proof (check_dir_ok (nth 0 args "")) as H0.
  pose proof (check_dir_ok (nth 1 args "")) as H1.
  pose proof (check_dir_exit (nth 0 args "")) as E0.
  pose proof (check_dir_exit (nth 1 args "")) as E1.
  pose proof (configure_exit (nth 0 args "") flagOpts) as Ec.
  destruct (check_dir (nth 0 args "")) as [[]|c0]; cbn [and_then].
  2:{ split.
      - split; [intros H; discriminate H|].
        intros [_ [Hs _]]. apply H0 in Hs. discriminate Hs.
      - intros c H; inversion H; subst. right. split; [now apply E0 | exact Hge]. }
  destruct (check_dir (nth 1 args "")) as [[]|c1]; cbn [and_then].
  2:{ split.
      - split; [intros H; discriminate H|].
        intros [_ [_ [Hs _]]]. apply H1 in Hs. discriminate Hs.
      - intros c H; inversion H; subst. right. split; [now apply E1 | exact Hge]. }
  destruct (configure (nth 0 args "") flagOpts) as [[opts g]|cc];
    cbn [and_then].
  2:{ split.
      - split; [intros H; discriminate H|].
        intros [_ [_ [_ [o [g' [Hc _]]]]]]. discriminate Hc.
      - intros c H; inversion H; subst. right. split; [now apply Ec | exact Hge]. }
  simpl fst.
  destruct (fs_Mount (nth 1 args "") (New (nth 0 args "")) opts) as [u|e]
    eqn:Hm.
  - split.
    + split; [|reflexivity]. intros _.
      split; [exact Hge|]. split; [now apply H0|]. split; [now apply H1|].
      exists opts, g. split; [reflexivity|]. exists u. exact Hm.
    + intros c H; discriminate H.
  - split.
    + split; [intros H; discriminate H|].
      intros [_ [_ [_ [o [g' [Hc [u Hu]]]]]]]. inversion Hc; subst.
      rewrite Hm in Hu. discriminate Hu.
    + intros c H; inversion H; subst. right. split; [reflexivity | exact Hge].
Qed.

End MainMore.

(** ** The earlier revisions *)

Section Earlier.
Context {B : Backing}.

(** X15.  Before the grace period nothing destructive gets through.  Each
    of the seven handlers returns EACCES, for every node, name and context,
    with or without a caller, and leaves the backing store and the clock
    as they were.  The log grows by one line, which holds the name given
    to [deny] and the caller, exactly when the node's [log] flag is on and
    the context carries a caller, and not at all otherwise. *)
Theorem LogOnly_handlers_refuse (n : LogOnly.MutNode) (ctx : Context)
        (w : World) :
  let lines (name : string) : list LogLine :=
    if LogOnly.log n then
      match FromContext ctx with
      | Some c => [AccessDenied name (Pid c) (Uid c) (Gid c)]
      | None => []
      end
    else [] in
  let refused (name : string) (o : Outcome Errno) :=
    o = Return EACCES (with_log w (lines name)) in
  (forall name, refused name (LogOnly.Unlink n ctx name w))
  /\ (forall name, refused name (LogOnly.Rmdir n ctx name w))
  /\ (forall attr, refused "" (LogOnly.Removexattr n ctx attr w))
  /\ (forall f i, refused "" (LogOnly.Setattr n ctx f i w))
  /\ (forall name np nn fl,
        refused name (LogOnly.Rename n ctx name np nn fl w))
  /\ (forall f o fl, refused "" (LogOnly.Setlkw n ctx f o fl w))
  /\ (forall attr data,
        LogOnly.Setxattr n ctx attr data w
        = Return (0, EACCES) (with_log w (lines "")))
  /\ (forall name, store (with_log w (lines name)) = store w
                   /\ now (with_log w (lines name)) = now w).
Proof.
  intros lines refused.
  assert (Hdeny : forall name, refused name (LogOnly.deny n ctx name w)).
  { intros name. unfold refused, lines, LogOnly.deny.
    destruct (LogOnly.log n); simpl.
    - destruct (FromContext ctx) as [c|].
      + destruct (String.eqb_spec name "") as [->|_]; reflexivity.
      + now rewrite with_log_nil.
    - now rewrite with_log_nil. }
  repeat split; intros; try apply Hdeny.
  unfold LogOnly.Setxattr, bind. rewrite (Hdeny ""). reflexivity.
Qed.

(** X16.  Before the grace period no open for writing is let through.  An
    open with a write-intent flag is answered with EACCES, the world
    untouched, when it carries no O_CREAT.  When it does, the embedded node
    has opened with the caller's flags first; its reply is passed on if it
    says ENOENT, and the answer is EACCES in every other case. *)
Theorem LogOnly_Open_for_writing (lb : LoopbackNode) (ctx : Context)
        (flags : Z) (w : World) :
  write_intent flags = true ->
  LogOnly.Open lb ctx flags w =
  if Z.land flags O_CREAT =? 0 then Return (None, 0, EACCES) w
  else
    let r := fst (LoopbackNode_Open lb flags (store w)) in
    Return (if snd r =? ENOENT then r else (None, 0, EACCES))
           (attempted lb flags w).
Proof.
  intros Hw. unfold LogOnly.Open, LogOnly.Open_switch. rewrite Hw.
  destruct (Z.land flags O_CREAT =? 0); simpl; [reflexivity|].
  unfold bind, call, attempted.
  destruct (LoopbackNode_Open lb flags (store w)) as [r s]; simpl.
  destruct (snd r =? ENOENT); reflexivity.
Qed.

(** X17.  Out of grace, the node is the node of before.  With [Log] off,
    a request for an object whose grace period is over, or whose birth
    time cannot be found, leaves exactly the outcome of the revision
    without a grace period: the same answer and the same world, for the
    six errno handlers and for [Open] with any flags. *)
Theorem out_of_grace_as_before (g : Globals) (n : MutNode) (ctx : Context)
        (w : World) :
  Log g = false ->
  (forall r, out_of_grace g (actualPath n (consulted r)) w ->
             serve g n ctx r w
             = LogOnly.deny {| LogOnly.log := false |} ctx (consulted r) w)
  /\ (forall flags,
        out_of_grace g (actualPath n "")
                     (if Z.land flags O_CREAT =? 0 then w
                      else attempted n flags w) ->
        Open g n ctx flags w = LogOnly.Open n ctx flags w).
Proof.
  intros Hlog.
  assert (Hans : answers g ctx) by (intros H; congruence).
  assert (Hdeny : forall name w0,
            out_of_grace g (actualPath n name) w0 ->
            deny g n ctx name w0 = Return EACCES w0).
  { intros name w0 Hout.
    rewrite (out_of_grace_refused g n ctx name w0 Hans Hout).
    unfold refusal_lines. rewrite Hlog. now rewrite with_log_nil. }
  split.
  - intros r Hout. rewrite serve_gate. unfold bind.
    rewrite (Hdeny _ _ Hout). reflexivity.
  - intros flags Hout. unfold Open, LogOnly.Open.
    assert (Hsw : forall w0, out_of_grace g (actualPath n "") w0 ->
              Open_switch g n ctx flags w0 = LogOnly.Open_switch n flags w0).
    { intros w0 Hout0. unfold Open_switch, LogOnly.Open_switch.
      destruct (write_intent flags); [|reflexivity].
      unfold bind. rewrite (Hdeny _ _ Hout0). reflexivity. }
    destruct (Z.land flags O_CREAT =? 0); cbn [negb].
    + now apply Hsw.
    + unfold bind, call, attempted in *. cbv beta.
      destruct (LoopbackNode_Open n flags (store w)) as [r s]; simpl in *.
      destruct (snd r =? ENOENT); [reflexivity | now apply Hsw].
Qed.

(** What [deny] of the linger revision leaves of the world. *)
Lemma Linger_deny_frame (g : Linger.Globals) (n : Linger.MutNode)
      (ctx : Context) (name : string) (w w' : World) (errno : Errno) :
  Linger.deny g n ctx name w = Return errno w' ->
  store w' = store w /\ now w' = now w /\ (errno = OK \/ errno = EACCES).
Proof.
  unfold Linger.deny, Linger.deny_refuse, bind, time_Now, deref, log_Printf,
    ret, panic.
  destruct (0 <? Linger.Linger g);
    [destruct (Since (now w) (Linger.ChangeTime n) <? Linger.Linger g)|];
    destruct (Linger.Log g); simpl; try destruct (FromContext ctx); simpl;
    try destruct (negb (name =? "")%string); simpl;
    intros H; inversion H; subst; simpl; auto.
Qed.

(** X18.  No linger period.  With [Linger] zero or less, [deny] of the
    linger revision is [deny] of the revision before it, with the package
    variable [Log] for the node's flag: it returns EACCES for every context,
    also one without a caller, and does not look at the clock. *)
Theorem Linger_without_linger (g : Linger.Globals) (n : Linger.MutNode)
        (ctx : Context) (name : string) (w : World) :
  Linger.Linger g <= 0 ->
  Linger.deny g n ctx name w
  = LogOnly.deny {| LogOnly.log := Linger.Log g |} ctx name w
  /\ exists w', Linger.deny g n ctx name w = Return EACCES w'
                /\ store w' = store w.
Proof.
  intros Hl. unfold Linger.deny.
  destruct (Z.ltb_spec 0 (Linger.Linger g)) as [Hpos|_]; [lia|].
  split; [reflexivity|].
  destruct (LogOnly_deny_refuses {| LogOnly.log := Linger.Log g |} ctx name w)
    as [w' [Hd Hst]].
  exists w'. split; [exact Hd | exact Hst].
Qed.

(** X19.  A node without a stat never lingers.  [New] with a nil stat
    gives the node the zero time; on any clock at or after the Unix epoch
    the time since then is beyond every Duration, so [deny] returns EACCES
    whatever [Linger] is. *)
Theorem Linger_zero_time (g : Linger.Globals) (root : string)
        (ctx : Context) (name : string) (w : World) :
  0 <= now w ->
  Linger.Linger g <= maxDuration ->
  exists w', Linger.deny g (fst (Linger.New root None)) ctx name w
             = Return EACCES w'
             /\ store w' = store w.
Proof.
  intros Hnow Hmax.
  assert (Hs : Since (now w) Linger.zeroTime = maxDuration).
  { unfold Since, Sub, Linger.zeroTime, Unix, Second, minDuration,
      maxDuration in *.
    destruct (Z.ltb_spec (now w - (-62135596800 * 1000000000 + 0))
                         (- 2 ^ 63)); [lia|].
    destruct (Z.ltb_spec (2 ^ 63 - 1)
                         (now w - (-62135596800 * 1000000000 + 0)));
      [reflexivity | lia]. }
  assert (Hrefuse : exists w', Linger.deny_refuse g ctx name w
                               = Return EACCES w' /\ store w' = store w).
  { exact (LogOnly_deny_refuses {| LogOnly.log := Linger.Log g |} ctx name w). }
  unfold Linger.deny. destruct (0 <? Linger.Linger g); [|exact Hrefuse].
  unfold bind, time_Now.
  change (Linger.ChangeTime (fst (Linger.New root None)))
    with Linger.zeroTime.
  cbv zeta. rewrite Hs.
  destruct (Z.ltb_spec maxDuration (Linger.Linger g)); [lia | exact Hrefuse].
Qed.

(** [deny] of the linger revision for a request that carries a caller. *)
Lemma Linger_deny_decided (g : Linger.Globals) (n : Linger.MutNode)
      (ctx : Context) (c : Caller) (name : string) (w : World) :
  FromContext ctx = Some c ->
  let since := Since (now w) (Linger.ChangeTime n) in
  let granted := (0 <? Linger.Linger g) && (since <? Linger.Linger g) in
  Linger.deny g n ctx name w =
  Return (if granted then OK else EACCES)
         (with_log w
            (if Linger.Log g
             then [if granted
                   then AccessGranted name (wrap64 (Linger.Linger g - since))
                                      (Pid c) (Uid c) (Gid c)
                   else AccessDenied name (Pid c) (Uid c) (Gid c)]
             else [])).
Proof.
  intros Hc. cbv zeta.
  unfold Linger.deny, Linger.deny_refuse, bind, time_Now. rewrite Hc.
  destruct (0 <? Linger.Linger g); simpl;
    [destruct (Since (now w) (Linger.ChangeTime n) <? Linger.Linger g)|];
    destruct (Linger.Log g); simpl; rewrite ?with_log_nil;
    try (destruct (String.eqb_spec name "") as [->|_]); reflexivity.
Qed.

(** X20.  Granted, and nothing done.  In the linger revision a request
    that carries a caller is granted exactly within the linger period of
    the node, that is when [Linger] is positive and less than [Linger]
    has gone by since the node's change time.  [Unlink] and [Rmdir] then
    call the embedded node.  [Removexattr], [Setattr], [Rename] and
    [Setlkw] return [fs.OK] and do nothing: apart from the one line that
    [Log] adds to the log, the world is as it was.  Outside the linger
    period all six return EACCES. *)
Theorem Linger_handlers_decided (g : Linger.Globals) (n : Linger.MutNode)
        (ctx : Context) (c : Caller) (w : World) :
  FromContext ctx = Some c ->
  let since := Since (now w) (Linger.ChangeTime n) in
  let granted := (0 <? Linger.Linger g) && (since <? Linger.Linger g) in
  let after (name : string) : World :=
    with_log w
      (if Linger.Log g
       then [if granted
             then AccessGranted name (wrap64 (Linger.Linger g - since))
                                (Pid c) (Uid c) (Gid c)
             else AccessDenied name (Pid c) (Uid c) (Gid c)]
       else []) in
  let answer : Errno := if granted then OK else EACCES in
  (forall atr, Linger.Removexattr g n ctx atr w = Return answer (after ""))
  /\ (forall f i, Linger.Setattr g n ctx f i w = Return answer (after ""))
  /\ (forall name f nn fl,
        Linger.Rename g n ctx name f nn fl w = Return answer (after name))
  /\ (forall fh o fl, Linger.Setlkw g n ctx fh o fl w
                      = Return answer (after ""))
  /\ (forall name,
        Linger.Unlink g n ctx name w =
        if granted then call (LoopbackNode_Unlink (Linger.lb n) name)
                             (after name)
        else Return EACCES (after name))
  /\ (forall name,
        Linger.Rmdir g n ctx name w =
        if granted then call (LoopbackNode_Rmdir (Linger.lb n) name)
                             (after name)
        else Return EACCES (after name))
  /\ (forall name, store (after name) = store w).
Proof.
  intros Hc since granted after answer.
  assert (Hd : forall name,
            Linger.deny g n ctx name w = Return answer (after name))
    by (intros name; exact (Linger_deny_decided g n ctx c name w Hc)).
  repeat split; intros;
    try (unfold Linger.Removexattr, Linger.Setattr, Linger.Rename,
           Linger.Setlkw; apply Hd).
  - unfold Linger.Unlink, bind. rewrite Hd. unfold answer.
    destruct granted; reflexivity.
  - unfold Linger.Rmdir, bind. rewrite Hd. unfold answer.
    destruct granted; reflexivity.
Qed.

End Earlier.

(** ** Requests that come through the mount *)

Lemma land_ldiff_apart (f m b : Z) :
  Z.land m b = 0 -> Z.land (Z.ldiff f m) b = Z.land f b.
Proof.
  intros Hmb. apply Z.bits_inj'. intros k Hk.
  rewrite !Z.land_spec, Z.ldiff_spec.
  assert (Hbit : Z.testbit m k && Z.testbit b k = false)
    by (rewrite <- Z.land_spec, Hmb; apply Z.bits_0).
  destruct (Z.testbit f k), (Z.testbit m k), (Z.testbit b k);
    simpl in *; congruence.
Qed.

Lemma land_ldiff_within (f m b : Z) :
  Z.land m b = b -> Z.land (Z.ldiff f m) b = 0.
Proof.
  intros Hmb. apply Z.bits_inj'. intros k Hk.
  rewrite Z.land_spec, Z.ldiff_spec, Z.bits_0.
  assert (Hbit : Z.testbit m k && Z.testbit b k = Z.testbit b k)
    by (rewrite <- Z.land_spec, Hmb; reflexivity).
  destruct (Z.testbit f k), (Z.testbit m k), (Z.testbit b k);
    simpl in *; congruence.
Qed.

(** The flags of an OPEN request carry no O_CREAT, and the write-intent
    flags of the call unchanged. *)
Lemma open_request_no_create (flags : Z) :
  Z.land (open_request_flags flags) O_CREAT = 0.
Proof. apply land_ldiff_within. reflexivity. Qed.

Lemma open_request_write_intent (flags : Z) :
  write_intent (open_request_flags flags) = write_intent flags.
Proof.
  unfold write_intent, open_request_flags.
  rewrite !land_ldiff_apart by reflexivity. reflexivity.
Qed.

Lemma open_request_flags_create (flags : Z) :
  open_request_flags (Z.ldiff flags O_CREAT) = open_request_flags flags.
Proof.
  unfold open_request_flags. apply Z.bits_inj'. intros k Hk.
  rewrite !Z.ldiff_spec.
  destruct (Z.testbit O_CREAT k) eqn:Hck; cbn [negb].
  - replace (Z.testbit (Z.lor O_CREAT (Z.lor O_EXCL O_NOCTTY)) k) with true
      by (symmetry; rewrite Z.lor_spec, Hck; reflexivity).
    cbn [negb]. now rewrite !andb_false_r.
  - now rewrite andb_true_r.
Qed.

Lemma read_only_In (opts : Options) :
  read_only opts = true <-> In "ro" (MountOptions_Options opts).
Proof.
  unfold read_only. rewrite existsb_exists. split.
  - intros [o [Hin Ho]]. apply String.eqb_eq in Ho. now subst.
  - intros Hin. exists "ro". split; [exact Hin | reflexivity].
Qed.

Section AtTheMount.
Context {B : Backing} {K : Creating B}.

Lemma request_answers (g : Globals) (c : Caller) :
  answers g (request_context c).
Proof. intros _ H. discriminate H. Qed.

(** A request that is refused as long as the object at [path] is out of
    grace stays refused under any retries. *)
Lemma retry_refused (g : Globals) (path : string) (m : M Errno) :
  (forall w, out_of_grace g path w ->
             exists l, m w = Return EACCES (with_log w l)) ->
  forall waits, Forall (fun dt => 0 <= dt) waits ->
  forall w, out_of_grace g path w ->
    exists w', retry m waits w = Return (repeat EACCES (List.length waits)) w'
               /\ store w' = store w.
Proof.
  intros Hm waits Hwaits.
  induction Hwaits as [|dt waits Hdt _ IH]; intros w Hout.
  - exists w. split; reflexivity.
  - simpl retry. unfold bind at 1. unfold sleep at 1.
    set (w1 := {| now := now w + dt; store := store w; logged := logged w |}).
    assert (Hout1 : out_of_grace g path w1)
      by now apply out_of_grace_later.
    destruct (Hm w1 Hout1) as [l Hl].
    unfold bind at 1. rewrite Hl.
    assert (Hout2 : out_of_grace g path (with_log w1 l)).
    { replace (with_log w1 l)
        with {| now := now w1 + 0; store := store w1;
                logged := logged w1 ++ l |}.
      - apply out_of_grace_later; [lia | exact Hout1].
      - unfold with_log; simpl. f_equal. lia. }
    destruct (IH _ Hout2) as [w' [Hr Hst]].
    exists w'. unfold bind. rewrite Hr. simpl. split; [reflexivity|].
    rewrite Hst. reflexivity.
Qed.

(** An open with write intent, as the mount delivers it, for an object out
    of grace. *)
Lemma open_node_refused (opts : Options) (g : Globals) (n : MutNode)
      (c : Caller) (flags : Z) (w w1 : World) :
  read_only opts = false ->
  write_intent flags = true ->
  deny g n (request_context c) "" w = Return EACCES w1 ->
  open_node_at_mount opts g n c flags w = Return (None, 0, EACCES) w1
  /\ store w1 = store w.
Proof.
  intros Hro Hw Hd. unfold open_node_at_mount. rewrite Hro. simpl.
  unfold Open. rewrite open_request_no_create. simpl.
  unfold Open_switch. rewrite open_request_write_intent, Hw.
  unfold bind. rewrite Hd. simpl. split; [reflexivity|].
  now destruct (deny_frame g _ _ _ _ _ _ Hd).
Qed.


(** C4.  Denial leaves no trace.  At a mount that is not read-only, when
    [deny] refuses one of unlink, rmdir, rename, setattr, setxattr and
    removexattr, or an open that carries a write-intent flag, the caller
    gets EACCES and the backing store is as it was; and when the object is
    out of grace, the request tried again any number of times, after any
    waits, is refused with EACCES each time and the backing store is still
    as it was. *)
Theorem denied_at_the_mount (opts : Options) (g : Globals) (n : MutNode)
        (c : Caller) :
  read_only opts = false ->
  (forall r w w1,
     deny g n (request_context c) (consulted r) w = Return EACCES w1 ->
     at_mount opts g n c r w = Return EACCES w1 /\ store w1 = store w)
  /\ (forall flags w w1,
        write_intent flags = true ->
        deny g n (request_context c) "" w = Return EACCES w1 ->
        open_node_at_mount opts g n c flags w = Return (None, 0, EACCES) w1
        /\ store w1 = store w)
  /\ (forall r waits w,
        Forall (fun dt => 0 <= dt) waits ->
        out_of_grace g (actualPath n (consulted r)) w ->
        exists w',
          retry (at_mount opts g n c r) waits w
          = Return (repeat EACCES (List.length waits)) w'
          /\ store w' = store w)
  /\ (forall flags waits w,
        write_intent flags = true ->
        Forall (fun dt => 0 <= dt) waits ->
        out_of_grace g (actualPath n "") w ->
        exists w',
          retry (errno_of (open_node_at_mount opts g n c flags)) waits w
          = Return (repeat EACCES (List.length waits)) w'
          /\ store w' = store w).
Proof.
  intros Hro. split; [|split; [|split]].
  - intros r w w1 Hd. unfold at_mount. rewrite Hro.
    now apply serve_refused.
  - intros flags w w1 Hw Hd. now apply open_node_refused.
  - intros r waits w Hwaits Hout.
    apply (retry_refused g (actualPath n (consulted r))); try assumption.
    intros w0 Hout0. eexists. unfold at_mount. rewrite Hro.
    apply serve_refused.
    apply (out_of_grace_refused g n (request_context c) (consulted r) w0
             (request_answers g c) Hout0).
  - intros flags waits w Hw Hwaits Hout.
    apply (retry_refused g (actualPath n "")); try assumption.
    intros w0 Hout0. eexists. unfold errno_of, bind.
    pose proof (out_of_grace_refused g n (request_context c) "" w0
                  (request_answers g c) Hout0) as Hd.
    destruct (open_node_refused opts g n c flags w0 _ Hro Hw Hd) as [Ho _].
    rewrite Ho. reflexivity.
Qed.


End AtTheMount.

(** * Closed instances on the small backing store *)

Section Examples.
Local Existing Instance Toy.backing.
Local Existing Instance Toy.runtime.
Local Existing Instance Toy_creating.

Lemma deny_grace_boundary_witness :
  let g := Toy.grace1_logged in
  let w := Toy.world Toy.host in
  let e := Since (now w) (Unix 999 0) in
  btime (actualPath Toy.root "new.txt") (store w) = Ok (Unix 999 0)
  /\ answers g Toy.request
  /\ e = Grace g
  /\ exists w', deny g Toy.root Toy.request "new.txt" w = Return EACCES w'.
Proof.
  intros g w e.
  assert (Hans : answers g Toy.request) by (intros _ H; discriminate H).
  split; [reflexivity|]. split; [exact Hans|]. split; [reflexivity|].
  destruct (deny_grace_boundary g Toy.root Toy.request "new.txt" w
              (Unix 999 0) eq_refl) as [_ [_ [_ Hiff]]].
  destruct (Hiff Hans) as [_ [_ Hedge]].
  apply Hedge. reflexivity.
Defined.

Lemma deny_fail_closed_witness :
  let g := Toy.grace5 in
  let w := Toy.world Toy.host in
  btime (actualPath Toy.root "missing.txt") (store w) = Err ENOENT
  /\ answers g Toy.anonymous
  /\ exists w', deny g Toy.root Toy.anonymous "missing.txt" w
                = Return EACCES w' /\ store w' = store w.
Proof.
  intros g w.
  assert (Hans : answers g Toy.anonymous) by (intros H; discriminate H).
  split; [reflexivity|]. split; [exact Hans|].
  destruct (deny_fail_closed g Toy.root Toy.anonymous "missing.txt" w
              ENOENT eq_refl) as [_ Hret].
  exact (Hret Hans).
Defined.

Lemma ro_is_only_a_mount_option_witness :
  exists opts g opts' g',
    configure "/srv/archive" ["ro"; "grace=5s"] = Go_on (opts, g)
    /\ configure "/srv/archive" (without_ro ["ro"; "grace=5s"])
       = Go_on (opts', g')
    /\ (In "ro" (MountOptions_Options opts) <-> In "ro" ["ro"; "grace=5s"])
    /\ deny g Toy.root Toy.request "new.txt" (Toy.world Toy.host)
       = deny g' Toy.root Toy.request "new.txt" (Toy.world Toy.host).
Proof.
  destruct (ro_is_only_a_mount_option "/srv/archive" ["ro"; "grace=5s"])
    as [_ [Hin Hdeny]].
  do 4 eexists. split; [reflexivity|]. split; [reflexivity|].
  split.
  - eapply Hin. reflexivity.
  - eapply Hdeny; reflexivity.
Defined.

(** The same file, refused three times over. *)
Lemma refused_for_good_example :
  exists w',
    retry (serve Toy.grace5 Toy.root Toy.request (ReqUnlink "old.txt"))
          [0; 1 * Second; 3600 * Second] (Toy.world Toy.host)
    = Return [EACCES; EACCES; EACCES] w'
    /\ store w' = Toy.host.
Proof.
  apply (refused_for_good Toy.grace5 Toy.root Toy.request (ReqUnlink "old.txt")
           [0; 1 * Second; 3600 * Second]).
  - intros H; discriminate H.
  - repeat constructor; discriminate.
  - vm_compute. intros H; discriminate H.
Defined.

Lemma Open_with_create_flag_witness :
  let w := Toy.world Toy.host in
  let n := Toy.child "new.txt" in
  Z.land O_CREAT O_CREAT <> 0
  /\ snd (fst (LoopbackNode_Open n O_CREAT (store w))) <> ENOENT
  /\ write_intent O_CREAT = false
  /\ Open Toy.grace5 n Toy.request O_CREAT w = Return (None, 0, EACCES) w.
Proof.
  intros w n.
  assert (Hc : Z.land O_CREAT O_CREAT <> 0) by (intros H; discriminate H).
  assert (Hne : snd (fst (LoopbackNode_Open n O_CREAT (store w))) <> ENOENT)
    by (intros H; discriminate H).
  split; [exact Hc|]. split; [exact Hne|]. split; [reflexivity|].
  destruct (Open_with_create_flag Toy.grace5 n Toy.request O_CREAT w Hc)
    as [_ [_ Hplain]].
  exact (Hplain Hne eq_refl).
Defined.

(** C6, at the input where it fails.  In an old directory a file made one
    second ago may be unlinked, its own grace period running, but not
    renamed: [Rename] asks for the birth time of the directory.  And in a
    directory made two seconds ago a file long out of grace is renamed. *)
Theorem Rename_consults_parent_directory :
  (let w := Toy.world Toy.host in
   btime (actualPath Toy.root "new.txt") (store w) = Ok (Unix 999 0)
   /\ btime (actualPath Toy.root "") (store w) = Ok (Unix 10 0)
   /\ deny Toy.grace5 Toy.root Toy.request "new.txt" w = Return OK w
   /\ Rename Toy.grace5 Toy.root Toy.request "new.txt" Toy.root "x.txt" 0 w
      = Return EACCES w)
  /\ (let w := Toy.world Toy.inbox in
      let dir := Toy.child "inbox" in
      btime (actualPath dir "old.txt") (store w) = Ok (Unix 20 0)
      /\ btime (actualPath dir "") (store w) = Ok (Unix 998 0)
      /\ deny Toy.grace5 dir Toy.request "old.txt" w = Return EACCES w
      /\ exists w',
          Rename Toy.grace5 dir Toy.request "old.txt" dir "x.txt" 0 w
          = Return OK w'
          /\ Toy.content "/srv/archive/inbox/old.txt" (store w') = None
          /\ Toy.content "/srv/archive/inbox/x.txt" (store w')
             = Some "ledger").
Proof.
  split.
  - repeat split.
  - repeat split. eexists. repeat split.
Qed.

Lemma deny_panics_without_caller_witness :
  let g := Toy.grace1_logged in
  let w := Toy.world Toy.host in
  Log g = true
  /\ FromContext Toy.anonymous = None
  /\ deny g Toy.root Toy.anonymous "old.txt" w = Panic w
  /\ serve g Toy.root Toy.anonymous (ReqUnlink "new.txt") w = Panic w
  /\ Open g (Toy.child "old.txt") Toy.anonymous O_WRONLY w = Panic w.
Proof.
  intros g w.
  destruct (deny_panics_without_caller g Toy.root Toy.anonymous w
              eq_refl eq_refl) as [Hdeny [Hserve _]].
  destruct (deny_panics_without_caller g (Toy.child "old.txt") Toy.anonymous
              w eq_refl eq_refl) as [_ [_ Hopen]].
  split; [reflexivity|]. split; [reflexivity|].
  split; [apply Hdeny|]. split; [apply Hserve|].
  apply Hopen; reflexivity.
Defined.

(** C8, counterexample.  On a file system without birth times statx
    succeeds and reports none; [btime] does not answer with an error but
    with the Unix epoch. *)
Lemma btime_without_birth_time_support :
  exists statx,
    unix_Statx "/srv/archive/new.txt" Toy.legacy = Ok statx
    /\ reports_btime statx = false
    /\ btime "/srv/archive/new.txt" Toy.legacy = Ok (Unix 0 0).
Proof. eexists. repeat split. Qed.

Lemma btime_is_statx_Btime_witness :
  btime "/srv/archive/new.txt" Toy.host = Ok (Unix 999 0)
  /\ btime "/srv/archive/new.txt" Toy.host
     = btime "/srv/archive/new.txt" Toy.edited
  /\ (forall e, unix_Statx "/srv/archive/gone.txt" Toy.host = Err e
                <-> btime "/srv/archive/gone.txt" Toy.host = Err e).
Proof.
  destruct (btime_is_statx_Btime (B:=Toy.backing) "/srv/archive/new.txt"
              Toy.host)
    as [_ [Hok Hsame]].
  split; [exact (Hok _ eq_refl)|].
  split; [exact (Hsame _ Toy.edited _ eq_refl eq_refl eq_refl)|].
  apply (btime_is_statx_Btime (B:=Toy.backing) "/srv/archive/gone.txt"
           Toy.host).
Defined.

(** C9, counterexample.  The first argument is a plain file: the process
    ends with exit code 1, not 2. *)
Lemma main_not_a_directory_exits_1 :
  not_a_directory "/etc/motd"
  /\ main ["/etc/motd"; "/mnt/mut"] [] = Exit 1
  /\ exit_status (main ["/etc/motd"; "/mnt/mut"] []) <> 2.
Proof.
  split; [exact I|]. split; [reflexivity|]. intros H; discriminate H.
Qed.

Lemma main_exit_status_witness :
  main ["/srv/archive"] ["debug"] = Exit 2
  /\ main ["/srv/archive"; "/nowhere"] ["debug"] = Exit 1.
Proof.
  split.
  - apply (main_exit_status ["/srv/archive"] ["debug"]). simpl; lia.
  - apply (main_exit_status ["/srv/archive"; "/nowhere"] ["debug"]).
    + simpl; lia.
    + right. exact I.
Defined.

Lemma logging_keeps_the_verdict_witness :
  FromContext Toy.request = Some {| Pid := 4242; Uid := 1000; Gid := 1000 |}
  /\ exists errno line,
      deny {| Log := false; Grace := 5 * Second |} Toy.root Toy.request
           "new.txt" (Toy.world Toy.host)
      = Return errno (Toy.world Toy.host)
      /\ deny {| Log := true; Grace := 5 * Second |} Toy.root Toy.request
              "new.txt" (Toy.world Toy.host)
         = Return errno (with_log (Toy.world Toy.host) [line])
      /\ (errno = OK \/ errno = EACCES).
Proof.
  split; [reflexivity|].
  exact (logging_keeps_the_verdict (5 * Second) Toy.root Toy.request
           "new.txt" (Toy.world Toy.host) _ eq_refl).
Defined.

Lemma zero_grace_witness :
  Grace initial_Globals <= 0
  /\ (forall errno w',
        deny initial_Globals Toy.root Toy.request "new.txt"
             (Toy.world Toy.host) = Return errno w' ->
        errno = EACCES)
  /\ now Toy.early < Unix 999 0
  /\ exists w', deny initial_Globals Toy.root Toy.request "new.txt" Toy.early
                = Return OK w'.
Proof.
  assert (Hg : Grace initial_Globals <= 0) by (intros H; discriminate H).
  split; [exact Hg|]. split; [|split].
  - apply (proj1 (zero_grace initial_Globals Toy.root Toy.request "new.txt"
                    (Toy.world Toy.host) Hg)).
    intros bt Hbt. inversion Hbt. intros H; discriminate H.
  - reflexivity.
  - apply (proj2 (zero_grace initial_Globals Toy.root Toy.request "new.txt"
                    Toy.early Hg) (Unix 999 0)).
    + reflexivity.
    + reflexivity.
    + reflexivity.
    + intros H; discriminate H.
Defined.

Lemma longer_grace_grants_more_witness :
  deny Toy.grace5 Toy.root Toy.request "new.txt" (Toy.world Toy.host)
  = Return OK (Toy.world Toy.host)
  /\ Grace Toy.grace5 <= Grace Toy.grace10
  /\ exists w2,
      deny Toy.grace10 Toy.root Toy.request "new.txt" (Toy.world Toy.host)
      = Return OK w2
      /\ store w2 = store (Toy.world Toy.host).
Proof.
  assert (Hle : Grace Toy.grace5 <= Grace Toy.grace10)
    by (intros H; discriminate H).
  split; [reflexivity|]. split; [exact Hle|].
  exact (longer_grace_grants_more Toy.grace5 Toy.grace10 Toy.root Toy.request
           "new.txt" (Toy.world Toy.host) (Toy.world Toy.host)
           eq_refl Hle eq_refl).
Defined.

Lemma serve_decided_witness :
  answers Toy.grace5 Toy.request
  /\ serve Toy.grace5 Toy.root Toy.request (ReqUnlink "new.txt")
           (Toy.world Toy.host)
     = call (LoopbackNode_Unlink Toy.root "new.txt") (Toy.world Toy.host)
  /\ serve Toy.grace5 Toy.root Toy.request (ReqRmdir "old.txt")
           (Toy.world Toy.host)
     = Return EACCES (Toy.world Toy.host).
Proof.
  assert (Hans : answers Toy.grace5 Toy.request)
    by (intros H; discriminate H).
  split; [exact Hans|]. split.
  - exact (serve_decided Toy.grace5 Toy.root Toy.request (ReqUnlink "new.txt")
             (Toy.world Toy.host) (Unix 999 0) Hans eq_refl).
  - exact (serve_decided Toy.grace5 Toy.root Toy.request (ReqRmdir "old.txt")
             (Toy.world Toy.host) (Unix 20 0) Hans eq_refl).
Defined.

Lemma serve_outcomes_witness :
  serve Toy.grace5 Toy.root Toy.request (ReqUnlink "new.txt")
        (Toy.world Toy.host)
  = Return OK (Toy.world (Toy.del "/srv/archive/new.txt" Toy.host))
  /\ ((OK = EACCES
       /\ store (Toy.world (Toy.del "/srv/archive/new.txt" Toy.host))
          = store (Toy.world Toy.host))
      \/ (OK, store (Toy.world (Toy.del "/srv/archive/new.txt" Toy.host)))
         = forward Toy.root (ReqUnlink "new.txt")
                   (store (Toy.world Toy.host))).
Proof.
  split; [reflexivity|].
  exact (serve_outcomes Toy.grace5 Toy.root Toy.request (ReqUnlink "new.txt")
           (Toy.world Toy.host) _ OK eq_refl).
Defined.

Lemma Open_for_reading_witness :
  Z.land 32768 O_CREAT = 0
  /\ write_intent 32768 = false
  /\ Open Toy.grace1_logged (Toy.child "old.txt") Toy.anonymous 32768
          (Toy.world Toy.host)
     = call (LoopbackNode_Open (Toy.child "old.txt") O_RDONLY)
            (Toy.world Toy.host)
  /\ Open Toy.grace1_logged (Toy.child "old.txt") Toy.anonymous 2048
          (Toy.world Toy.host)
     = Return (None, 0, EACCES) (Toy.world Toy.host).
Proof.
  split; [reflexivity|]. split; [reflexivity|]. split.
  - exact (Open_for_reading Toy.grace1_logged (Toy.child "old.txt")
             Toy.anonymous 32768 (Toy.world Toy.host) eq_refl eq_refl).
  - exact (Open_for_reading Toy.grace1_logged (Toy.child "old.txt")
             Toy.anonymous 2048 (Toy.world Toy.host) eq_refl eq_refl).
Defined.

Lemma Open_for_writing_witness :
  Z.land O_WRONLY O_CREAT = 0
  /\ write_intent O_WRONLY = true
  /\ answers Toy.grace5 Toy.request
  /\ Open Toy.grace5 (Toy.child "new.txt") Toy.request O_WRONLY
          (Toy.world Toy.host)
     = call (LoopbackNode_Open (Toy.child "new.txt") O_WRONLY)
            (Toy.world Toy.host)
  /\ Open Toy.grace5 (Toy.child "old.txt") Toy.request O_WRONLY
          (Toy.world Toy.host)
     = Return (None, 0, EACCES) (Toy.world Toy.host).
Proof.
  assert (Hans : answers Toy.grace5 Toy.request)
    by (intros H; discriminate H).
  split; [reflexivity|]. split; [reflexivity|]. split; [exact Hans|]. split.
  - exact (Open_for_writing Toy.grace5 (Toy.child "new.txt") Toy.request
             O_WRONLY (Toy.world Toy.host) (Unix 999 0)
             eq_refl eq_refl Hans eq_refl).
  - exact (Open_for_writing Toy.grace5 (Toy.child "old.txt") Toy.request
             O_WRONLY (Toy.world Toy.host) (Unix 20 0)
             eq_refl eq_refl Hans eq_refl).
Defined.

Lemma configure_result_witness :
  exists opts g,
    configure "/srv/archive" ["log"; "allow_other"; "ro"; "grace=5s"]
    = Go_on (opts, g)
    /\ MountOptions_Options opts
       = ["default_permissions"; "ro"; "fsname=/srv/archive"]
    /\ AllowOther opts = true
    /\ Debug opts = false
    /\ Log g = true.
Proof.
  do 2 eexists. split; [reflexivity|].
  match goal with
  | |- MountOptions_Options ?o = _ /\ _ /\ _ /\ Log ?g = _ =>
      assert (H : configure "/srv/archive"
                    ["log"; "allow_other"; "ro"; "grace=5s"] = Go_on (o, g))
        by reflexivity;
      destruct (configure_result "/srv/archive"
                  ["log"; "allow_other"; "ro"; "grace=5s"] o g H)
        as [Hopts Hlog]
  end.
  rewrite Hopts. split; [reflexivity|]. split; [reflexivity|].
  split; [reflexivity|]. exact Hlog.
Defined.

Lemma configure_without_grace_witness :
  Forall (fun o => strings_HasPrefix o "grace=" = false)
         ["log"; "nouser"; "allow_other"]
  /\ exists opts,
      configure "/srv/archive" ["log"; "nouser"; "allow_other"]
      = Go_on (opts, {| Log := true; Grace := 0 |}).
Proof.
  assert (H : Forall (fun o => strings_HasPrefix o "grace=" = false)
                     ["log"; "nouser"; "allow_other"])
    by (repeat constructor).
  split; [exact H|].
  exact (configure_without_grace "/srv/archive"
           ["log"; "nouser"; "allow_other"] H).
Defined.

Lemma last_grace_counts_witness :
  exists opts,
    configure "/srv/archive" ["grace=5s"; "log"]
    = Go_on (opts, {| Log := true; Grace := 5 * Second |})
    /\ configure "/srv/archive" (["grace=5s"; "log"] ++ ["grace=" ++ "10m"])
       = Go_on (opts, {| Log := true; Grace := 600 * Second |}).
Proof.
  eexists. split; [reflexivity|].
  exact (last_grace_counts "/srv/archive" ["grace=5s"; "log"] _
           {| Log := true; Grace := 5 * Second |} "10m" (600 * Second)
           eq_refl eq_refl eq_refl).
Defined.

Lemma main_outcome_witness :
  main ["/srv/archive"; "/mnt/mut"] ["log"; "grace=5s"] = Go_on tt
  /\ main ["/srv/archive"; "/mnt/mut"] ["grace=5"] = Exit 1
  /\ ((1 = 2 /\ (List.length ["/srv/archive"; "/mnt/mut"] < 2)%nat)
      \/ (1 = 1 /\ (2 <= List.length ["/srv/archive"; "/mnt/mut"])%nat)).
Proof.
  split; [|split; [reflexivity|]].
  - apply (proj1 (main_outcome ["/srv/archive"; "/mnt/mut"]
                    ["log"; "grace=5s"])).
    split; [simpl; lia|]. split; [reflexivity|]. split; [reflexivity|].
    do 2 eexists. split; [reflexivity|]. exists tt. reflexivity.
  - exact (proj2 (main_outcome ["/srv/archive"; "/mnt/mut"] ["grace=5"])
             1 eq_refl).
Defined.

Lemma LogOnly_handlers_refuse_witness :
  LogOnly.Unlink {| LogOnly.log := true |} Toy.request "old.txt"
                 (Toy.world Toy.host)
  = Return EACCES (with_log (Toy.world Toy.host)
                            [AccessDenied "old.txt" 4242 1000 1000])
  /\ LogOnly.Setxattr {| LogOnly.log := false |} Toy.request "user.k" "v"
                      (Toy.world Toy.host)
     = Return (0, EACCES) (Toy.world Toy.host).
Proof.
  split.
  - exact (proj1 (LogOnly_handlers_refuse {| LogOnly.log := true |}
                    Toy.request (Toy.world Toy.host)) "old.txt").
  - destruct (LogOnly_handlers_refuse {| LogOnly.log := false |}
                Toy.request (Toy.world Toy.host))
      as [_ [_ [_ [_ [_ [_ [Hx _]]]]]]].
    exact (Hx "user.k" "v").
Defined.

Lemma LogOnly_Open_for_writing_witness :
  write_intent (Z.lor O_WRONLY O_APPEND) = true
  /\ LogOnly.Open (Toy.child "new.txt") Toy.request (Z.lor O_WRONLY O_APPEND)
                  (Toy.world Toy.host)
     = Return (None, 0, EACCES) (Toy.world Toy.host).
Proof.
  split; [reflexivity|].
  exact (LogOnly_Open_for_writing (Toy.child "new.txt") Toy.request
           (Z.lor O_WRONLY O_APPEND) (Toy.world Toy.host) eq_refl).
Defined.

Lemma out_of_grace_as_before_witness :
  Log Toy.grace5 = false
  /\ out_of_grace Toy.grace5 (actualPath Toy.root "old.txt")
                  (Toy.world Toy.host)
  /\ serve Toy.grace5 Toy.root Toy.request (ReqUnlink "old.txt")
           (Toy.world Toy.host)
     = LogOnly.deny {| LogOnly.log := false |} Toy.request "old.txt"
                    (Toy.world Toy.host)
  /\ Open Toy.grace5 (Toy.child "old.txt") Toy.request O_RDWR
          (Toy.world Toy.host)
     = LogOnly.Open (Toy.child "old.txt") Toy.request O_RDWR
                    (Toy.world Toy.host).
Proof.
  assert (Hout : out_of_grace Toy.grace5 (actualPath Toy.root "old.txt")
                              (Toy.world Toy.host))
    by (vm_compute; intros H; discriminate H).
  assert (Hout' : out_of_grace Toy.grace5 (actualPath (Toy.child "old.txt") "")
                               (Toy.world Toy.host))
    by (vm_compute; intros H; discriminate H).
  split; [reflexivity|]. split; [exact Hout|]. split.
  - exact (proj1 (out_of_grace_as_before Toy.grace5 Toy.root Toy.request
                    (Toy.world Toy.host) eq_refl)
             (ReqUnlink "old.txt") Hout).
  - exact (proj2 (out_of_grace_as_before Toy.grace5 (Toy.child "old.txt")
                    Toy.request (Toy.world Toy.host) eq_refl)
             O_RDWR Hout').
Defined.

Lemma Linger_without_linger_witness :
  Linger.Linger Toy.linger0_logged <= 0
  /\ exists w',
      Linger.deny Toy.linger0_logged Toy.lingering Toy.anonymous "new.txt"
                  (Toy.world Toy.host)
      = Return EACCES w'
      /\ store w' = store (Toy.world Toy.host).
Proof.
  assert (Hl : Linger.Linger Toy.linger0_logged <= 0)
    by (intros H; discriminate H).
  split; [exact Hl|].
  exact (proj2 (Linger_without_linger Toy.linger0_logged Toy.lingering
                  Toy.anonymous "new.txt" (Toy.world Toy.host) Hl)).
Defined.

Lemma Linger_zero_time_witness :
  0 <= now (Toy.world Toy.host)
  /\ Linger.Linger Toy.linger5 <= maxDuration
  /\ exists w',
      Linger.deny Toy.linger5 (fst (Linger.New "/srv/archive" None))
                  Toy.request "new.txt" (Toy.world Toy.host)
      = Return EACCES w'
      /\ store w' = store (Toy.world Toy.host).
Proof.
  assert (Hnow : 0 <= now (Toy.world Toy.host)) by (intros H; discriminate H).
  assert (Hmax : Linger.Linger Toy.linger5 <= maxDuration)
    by (intros H; discriminate H).
  split; [exact Hnow|]. split; [exact Hmax|].
  exact (Linger_zero_time Toy.linger5 "/srv/archive" Toy.request "new.txt"
           (Toy.world Toy.host) Hnow Hmax).
Defined.

Lemma Linger_handlers_decided_witness :
  FromContext Toy.request = Some Toy_caller
  /\ Linger.Rename Toy.linger5 Toy.lingering Toy.request "new.txt"
                   (Toy.child "") "x.txt" 0 (Toy.world Toy.host)
     = Return OK (Toy.world Toy.host)
  /\ Linger.Unlink Toy.linger5 Toy.lingering Toy.request "new.txt"
                   (Toy.world Toy.host)
     = call (LoopbackNode_Unlink (Toy.child "new.txt") "new.txt")
            (Toy.world Toy.host).
Proof.
  destruct (Linger_handlers_decided Toy.linger5 Toy.lingering Toy.request
              Toy_caller (Toy.world Toy.host) eq_refl)
    as [_ [_ [Hrename [_ [Hunlink _]]]]].
  split; [reflexivity|]. split.
  - exact (Hrename "new.txt" (Toy.child "") "x.txt" 0).
  - exact (Hunlink "new.txt").
Defined.


Lemma denied_at_the_mount_witness :
  read_only initial_Options = false
  /\ deny Toy.grace5 Toy.root (request_context Toy_caller) "old.txt"
          (Toy.world Toy.host) = Return EACCES (Toy.world Toy.host)
  /\ (at_mount initial_Options Toy.grace5 Toy.root Toy_caller
               (ReqUnlink "old.txt") (Toy.world Toy.host)
      = Return EACCES (Toy.world Toy.host)
      /\ store (Toy.world Toy.host) = store (Toy.world Toy.host))
  /\ (open_node_at_mount initial_Options Toy.grace5 (Toy.child "old.txt")
                         Toy_caller Toy.overwrite_flags (Toy.world Toy.host)
      = Return (None, 0, EACCES) (Toy.world Toy.host)
      /\ store (Toy.world Toy.host) = store (Toy.world Toy.host))
  /\ exists w',
      retry (errno_of (open_node_at_mount initial_Options Toy.grace5
                         (Toy.child "old.txt") Toy_caller
                         Toy.overwrite_flags))
            [0; 1 * Second; 3600 * Second] (Toy.world Toy.host)
      = Return [EACCES; EACCES; EACCES] w'
      /\ store w' = Toy.host.
Proof.
  assert (Hro : read_only initial_Options = false) by reflexivity.
  destruct (denied_at_the_mount initial_Options Toy.grace5 Toy.root Toy_caller
              Hro) as [Hreq _].
  destruct (denied_at_the_mount initial_Options Toy.grace5
              (Toy.child "old.txt") Toy_caller Hro)
    as [_ [Hopen [_ Hretry]]].
  split; [exact Hro|]. split; [reflexivity|]. split; [|split].
  - apply (Hreq (ReqUnlink "old.txt")). reflexivity.
  - apply Hopen; reflexivity.
  - apply (Hretry Toy.overwrite_flags [0; 1 * Second; 3600 * Second]).
    + reflexivity.
    + repeat constructor; discriminate.
    + vm_compute. intros H; discriminate H.
Defined.


End Examples.
